(** * Operator family of rust-autograd: array and activation operators

    Shallow embedding of [src/ops/array_ops.rs] and
    [src/ops/activation_ops.rs].

    Arrays are modelled the way the [ndarray] crate presents a
    standard-layout array: a shape and the elements in row-major order.
    The float type [T] of the source is modelled by [Z] (exact arithmetic)
    for the shape and indexing operators, and by [R] for Softmax, whose
    forward pass needs [exp].  A Rust [panic!] (or a failing [unwrap],
    [assert!] or out-of-range slice index) is the [Panic] outcome; a
    [Result::Err] returned by [compute] is the [Err] constructor of
    [ComputeResult]. *)

From Stdlib Require Import String.
From Stdlib Require Import List ZArith Lia Bool Reals Lra Psatz Sorted.
Import ListNotations.
Set Warnings "-register-all".

(** ** Fatal outcomes *)

Inductive Outcome (A : Type) : Type :=
| Done (a : A)
| Panic (msg : string).
Arguments Done {A} a.
Arguments Panic {A} msg.

Definition obind {A B : Type} (m : Outcome A) (k : A -> Outcome B) : Outcome B :=
  match m with
  | Done a => k a
  | Panic s => Panic s
  end.

Notation "x <- m ;; k" := (obind m (fun x => k))
  (at level 61, m at next level, right associativity).

Definition unwrap {A : Type} (o : option A) (msg : string) : Outcome A :=
  match o with
  | Some a => Done a
  | None => Panic msg
  end.

(** [xs[k]] on a Rust slice. *)
Definition index_slice {A : Type} (xs : list A) (k : nat) : Outcome A :=
  unwrap (nth_error xs k) "index out of bounds".

(** [z as usize] for a 64-bit target: two's-complement wrap-around. *)
Definition as_usize (z : Z) : Z := Z.modulo z (2 ^ 64)%Z.

Definition isize_range (z : Z) : Prop := (- 2 ^ 63 <= z < 2 ^ 63)%Z.

(** ** The array backend (standard-layout [ndarray] arrays) *)

Class Zeroed (A : Type) := zero : A.
#[export] Instance Zeroed_Z : Zeroed Z := 0%Z.
#[export] Instance Zeroed_R : Zeroed R := 0%R.

Record NdArray (A : Type) : Type := mkArr {
  shape : list nat;
  data : list A
}.
Arguments mkArr {A}.
Arguments shape {A}.
Arguments data {A}.

Fixpoint prod (s : list nat) : nat :=
  match s with
  | [] => 1
  | d :: s' => d * prod s'
  end.

(** [a.len()]: the number of elements. *)
Definition len {A : Type} (a : NdArray A) : nat := prod (shape a).

(** Well-formed arrays hold exactly [len] elements. *)
Definition wf {A : Type} (a : NdArray A) : Prop := length (data a) = len a.

(** Row-major position of a multi-index, and its inverse. *)
Fixpoint ravel (s idx : list nat) : nat :=
  match s, idx with
  | d :: s', i :: idx' => i * prod s' + ravel s' idx'
  | _, _ => 0
  end.

Fixpoint unravel (s : list nat) (p : nat) : list nat :=
  match s with
  | [] => []
  | d :: s' => (p / prod s') :: unravel s' (p mod prod s')
  end.

(** A multi-index inside a shape. *)
Fixpoint in_range (idx s : list nat) : bool :=
  match idx, s with
  | [], [] => true
  | i :: idx', d :: s' => Nat.ltb i d && in_range idx' s'
  | _, _ => false
  end.

(** [a[idx]] for an in-range index. *)
Definition at_ {A : Type} `{Zeroed A} (a : NdArray A) (idx : list nat) : A :=
  nth (ravel (shape a) idx) (data a) zero.

(** The array of shape [s] whose element at [idx] is [f idx]
    ([Array::from_shape_fn]). *)
Definition build {A : Type} (s : list nat) (f : list nat -> A) : NdArray A :=
  mkArr s (map (fun p => f (unravel s p)) (seq 0 (prod s))).

Definition zeros (s : list nat) : NdArray Z := build s (fun _ => 0%Z).

(** [arr0(v)]: a 0-dimensional array. *)
Definition arr0 {A : Type} (v : A) : NdArray A := mkArr [] [v].

(** [a.into_shape(s)] on a standard-layout array: the same elements,
    read with the new shape; an error when the sizes differ. *)
Definition into_shape {A : Type} (a : NdArray A) (s : list nat) : option (NdArray A) :=
  if Nat.eqb (prod s) (len a) then Some (mkArr s (data a)) else None.

(** [a.get(i)] on the flat one-dimensional view of [a]. *)
Definition flat_get {A : Type} (a : NdArray A) (i : Z) : option A :=
  if (0 <=? i)%Z && (i <? Z.of_nat (len a))%Z
  then nth_error (data a) (Z.to_nat i) else None.

(** Replace the [i]-th element of a list (no effect out of range). *)
Fixpoint set_nth {A : Type} (i : nat) (v : A) (l : list A) : list A :=
  match l, i with
  | [], _ => []
  | _ :: l', O => v :: l'
  | x :: l', S i' => x :: set_nth i' v l'
  end.

(** ** Values handed to and returned by [compute] *)

(** An input of [compute] is a view ([NdArrayView]) into some storage,
    identified by [storage]. *)
Record NdArrayView : Type := mkView {
  storage : nat;
  view : NdArray Z
}.

(** [crate::ArrRepr]: a fresh owned array or a view aliasing an
    existing storage. *)
Inductive ArrRepr : Type :=
| Owned (a : NdArray Z)
| View (v : NdArrayView).

(** The error a [compute] may return instead of an array. *)
Inductive ComputeError : Type :=
| ComputeError_msg (msg : string).

Inductive ComputeResult : Type :=
| Ok (r : ArrRepr)
| Err (e : ComputeError).

(** [op::ComputeResults]: one result per output, or a panic. *)
Definition ComputeResults := Outcome (list ComputeResult).

(** ** Views with their memory layout *)

(** A view as [ndarray] holds it: the elements [sv_buf] of its storage
    [sv_storage], the position [sv_offset] of its first element, its shape
    and one stride (an [isize]) per axis.  The element at [idx] sits at
    [sv_offset + Σ idx[k] * sv_strides[k]]. *)
Record StridedView : Type := mkStrided {
  sv_storage : nat;
  sv_buf : list Z;
  sv_offset : Z;
  sv_shape : list nat;
  sv_strides : list Z
}.

Fixpoint dot (idx : list nat) (st : list Z) : Z :=
  match idx, st with
  | i :: idx', s :: st' => (Z.of_nat i * s + dot idx' st')%Z
  | _, _ => 0%Z
  end.

(** The element of the storage at a position. *)
Definition sv_read (v : StridedView) (pos : Z) : Z := nth (Z.to_nat pos) (sv_buf v) 0%Z.

(** [v[idx]] for an in-range index. *)
Definition sv_at (v : StridedView) (idx : list nat) : Z :=
  sv_read v (sv_offset v + dot idx (sv_strides v)).

(** [v.get(idx)]. *)
Definition sv_get (v : StridedView) (idx : list nat) : option Z :=
  if in_range idx (sv_shape v) then Some (sv_at v idx) else None.

(** [v.len()]. *)
Definition sv_len (v : StridedView) : nat := prod (sv_shape v).

(** The elements of the view in the row-major order of their indices. *)
Definition sv_elements (v : StridedView) : NdArray Z := build (sv_shape v) (sv_at v).

(** Row-major strides: the extent of axis [k] is stepped by the product of
    the extents after it. *)
Fixpoint c_strides (s : list nat) : list Z :=
  match s with
  | [] => []
  | _ :: s' => Z.of_nat (prod s') :: c_strides s'
  end.

(** [Dimension::default_strides]: the row-major strides, all zero for an
    empty array. *)
Definition default_strides (s : list nat) : list Z :=
  if forallb (fun d => negb (Nat.eqb d 0)) s then c_strides s else map (fun _ => 0%Z) s.

(** [Dimension::fortran_strides]: the column-major strides, all zero for an
    empty array. *)
Definition fortran_strides (s : list nat) : list Z :=
  if forallb (fun d => negb (Nat.eqb d 0)) s then rev (c_strides (rev s)) else map (fun _ => 0%Z) s.

(** [is_standard_layout] for a dynamic-rank array: an empty array is
    standard; otherwise every axis of extent other than 1 has its row-major
    stride (strides are stored as [usize]). *)
Definition is_standard_layout (s : list nat) (st : list Z) : bool :=
  if existsb (Nat.eqb 0) s then true
  else forallb (fun '(d, (x, ds)) => Nat.eqb d 1 || (as_usize x =? ds)%Z)
               (combine s (combine st (default_strides s))).

(** [v.into_shape(t)]: the same elements read with the shape [t], in
    row-major order when [v] is in standard layout, in column-major order
    when [v] has more than one axis and its reversed axes are in standard
    layout, and an error otherwise (and when the sizes differ). *)
Definition sv_into_shape (v : StridedView) (t : list nat) : option StridedView :=
  if negb (Nat.eqb (prod t) (sv_len v)) then None
  else if is_standard_layout (sv_shape v) (sv_strides v)
  then Some (mkStrided (sv_storage v) (sv_buf v) (sv_offset v) t (default_strides t))
  else if Nat.ltb 1 (length (sv_shape v)) && is_standard_layout (rev (sv_shape v)) (rev (sv_strides v))
  then Some (mkStrided (sv_storage v) (sv_buf v) (sv_offset v) t (fortran_strides t))
  else None.

(** ** IndexOp / IndexOpGrad *)

(** The flat position an [index] designates in an array of [n] elements
    ([self.index < 0] wraps around). *)
Definition resolve_index (n : nat) (index : Z) : Z :=
  if (index <? 0)%Z then as_usize (Z.of_nat n + index) else as_usize index.

(** [IndexOp::compute] reads [x] through [x.view().into_shape(x.len())],
    which depends on how the elements of [x] sit in memory: its input is
    modelled with its strides. *)
Definition IndexOp_compute (index : Z) (xs : list StridedView) : ComputeResults :=
  x <- index_slice xs 0 ;;
  let i := resolve_index (sv_len x) index in
  (* unwrap is safe *)
  flat_x <- unwrap (sv_into_shape x [sv_len x]) "called `Result::unwrap()` on an `Err` value" ;;
  match sv_get flat_x [Z.to_nat i] with
  | Some ret => Done [Ok (Owned (arr0 ret))]
  | None => Panic "Index out of bounds"
  end.

Definition IndexOpGrad_compute (index : Z) (xs : list NdArrayView) : ComputeResults :=
  x <- index_slice xs 0 ;;
  gy <- index_slice xs 1 ;;
  let result := zeros (shape (view x)) in
  let i := resolve_index (len (view x)) index in
  let n := len result in
  match flat_get result i with
  | Some _ =>
      (* [*a = gy[IxDyn(&[])]] *)
      g <- (match shape (view gy) with
            | [] => index_slice (data (view gy)) 0
            | _ => Panic "ndarray: index out of bounds"
            end) ;;
      Done [Ok (Owned (mkArr (shape result) (set_nth (Z.to_nat i) g (data result))))]
  | None => Panic "Index out of bounds"
  end.

(** ** Axes *)

Definition ndim {A : Type} (a : NdArray A) : nat := length (shape a).

(** [a.len_of(Axis(k))] / [a.shape()[k]] for an axis in range. *)
Definition ax_len {A : Type} (a : NdArray A) (k : nat) : nat := nth k (shape a) 0.

(** [a.shape()[k]]: panics when [k] is not below the rank. *)
Definition shape_at {A : Type} (a : NdArray A) (k : Z) : Outcome nat :=
  if (0 <=? k)%Z && (k <? Z.of_nat (ndim a))%Z
  then Done (ax_len a (Z.to_nat k)) else Panic "index out of bounds".

(** [Dimension::remove_axis]. *)
Fixpoint remove_at {A : Type} (k : nat) (l : list A) : list A :=
  match l, k with
  | [], _ => []
  | _ :: l', O => l'
  | x :: l', S k' => x :: remove_at k' l'
  end.

Definition list_nat_eqb (l1 l2 : list nat) : bool :=
  if list_eq_dec Nat.eq_dec l1 l2 then true else false.

(** ** [ndarray::stack]: concatenation along an existing axis *)

(** The element at [idx] of the concatenation of [arrays] along [axis]:
    the array whose block along [axis] contains [idx[axis]]. *)
Fixpoint stack_at (axis : nat) (arrays : list (NdArray Z)) (idx : list nat) : Z :=
  match arrays with
  | [] => 0%Z
  | a :: rest =>
      let j := nth axis idx 0 in
      if Nat.ltb j (ax_len a axis) then at_ a idx
      else stack_at axis rest (set_nth axis (j - ax_len a axis) idx)
  end.

(** [stack(Axis(axis), arrays)]: an error ([None]) for an empty list, an
    axis beyond the rank, or shapes that differ off [axis]. *)
Definition stack (axis : Z) (arrays : list (NdArray Z)) : option (NdArray Z) :=
  match arrays with
  | [] => None
  | a0 :: _ =>
      if (Z.of_nat (ndim a0) <=? axis)%Z then None
      else
        let ax := Z.to_nat axis in
        if forallb (fun a => list_nat_eqb (remove_at ax (shape a)) (remove_at ax (shape a0))) arrays
        then
          let stacked := fold_left (fun acc a => acc + ax_len a ax) arrays 0 in
          Some (build (set_nth ax stacked (shape a0)) (stack_at ax arrays))
        else None
  end.

(** ** Slicing with unit step ([SliceOrIndex::Slice { start, end, step: 1 }]) *)

Record UnitSlice : Type := mkSlice {
  sl_start : Z;
  sl_end : option Z
}.

(** The full slice [..]. *)
Definition full_slice : UnitSlice := mkSlice 0 None.

(** [abs_index(len, index)]: a negative index counts from the end. *)
Definition abs_index (n : nat) (index : Z) : Z :=
  if (index <? 0)%Z then (Z.of_nat n + index)%Z else index.

(** [do_slice] on one axis of extent [n]: the retained range [start, end). *)
Definition do_slice (n : nat) (sl : UnitSlice) : Outcome (nat * nat) :=
  let s := abs_index n (sl_start sl) in
  let e0 := abs_index n (match sl_end sl with Some e => e | None => Z.of_nat n end) in
  if (s <? 0)%Z || (e0 <? 0)%Z then Panic "attempt to subtract with overflow"
  else
    let e := if (e0 <? s)%Z then s else e0 in
    if (Z.of_nat n <? s)%Z || (Z.of_nat n <? e)%Z then Panic "assertion failed: index <= axis_len"
    else Done (Z.to_nat s, Z.to_nat e).

Fixpoint do_slices (s : list nat) (sls : list UnitSlice) : Outcome (list (nat * nat)) :=
  match s, sls with
  | [], [] => Done []
  | n :: s', sl :: sls' =>
      r <- do_slice n sl ;; rs <- do_slices s' sls' ;; Done (r :: rs)
  | _, _ => Panic "assertion failed: indices.len() == ndim"
  end.

(** [a.slice_move(indices)]. *)
Definition slice_move (a : NdArray Z) (sls : list UnitSlice) : Outcome (NdArray Z) :=
  rs <- do_slices (shape a) sls ;;
  Done (build (map (fun r => snd r - fst r) rs)
              (fun idx => at_ a (map (fun '(i, r) => i + fst r) (combine idx rs)))).

(** ** Concat / ConcatGrad *)

(** [if axis < 0 { (x.ndim() as isize + axis) as usize } else { axis as usize }]. *)
Definition normalize_axis (axis : Z) (x : NdArray Z) : Z :=
  if (axis <? 0)%Z then as_usize (Z.of_nat (ndim x) + axis) else as_usize axis.

Definition Concat_compute (axis : Z) (xs : list NdArrayView) : ComputeResults :=
  let views := map view xs in
  axis <- (if (axis <? 0)%Z then x0 <- index_slice xs 0 ;; Done (normalize_axis axis (view x0))
           else Done (as_usize axis)) ;;
  match stack axis views with
  | Some y => Done [Ok (Owned y)]
  | None => Panic "Can't concat arrays whose shapes are incompatible."
  end.

(** [xs[..k]] on a Rust slice. *)
Definition prefix_slice {A : Type} (xs : list A) (k : nat) : Outcome (list A) :=
  if Nat.leb k (length xs) then Done (firstn k xs) else Panic "range end index out of range".

Fixpoint sum_extents (axis : Z) (xs : list NdArrayView) : Outcome nat :=
  match xs with
  | [] => Done 0
  | x :: xs' => d <- shape_at (view x) axis ;; rest <- sum_extents axis xs' ;; Done (d + rest)
  end.

Definition ConcatGrad_compute (axis : Z) (index : nat) (inputs : list NdArrayView) : ComputeResults :=
  gy <- index_slice inputs 0 ;;
  let xs := tl inputs in
  axis <- (if (axis <? 0)%Z then x0 <- index_slice xs 0 ;; Done (normalize_axis axis (view x0))
           else Done (as_usize axis)) ;;
  (* make slice indices *)
  before <- prefix_slice xs index ;;
  start_idx <- sum_extents axis before ;;
  xi <- index_slice xs index ;;
  region_len <- shape_at (view xi) axis ;;
  let indices :=
    map (fun k => if (Z.of_nat k =? axis)%Z
                  then mkSlice (Z.of_nat start_idx) (Some (Z.of_nat region_len))
                  else full_slice)
        (seq 0 (ndim (view gy))) in
  ret <- slice_move (view gy) indices ;;
  Done [Ok (View (mkView (storage gy) ret))].

(** ** Reshape *)

(** [T::to_usize]: [None] for values outside the range of [usize]. *)
Definition to_usize (z : Z) : option Z :=
  if (0 <=? z)%Z && (z <? 2 ^ 64)%Z then Some z else None.

(** The target shape: an entry [-1] is inferred from the others. *)
Definition reshape_target (x : NdArray Z) (shape_arr : NdArray Z) : Outcome (list Z) :=
  let fix go (l : list Z) : Outcome (list Z) :=
    match l with
    | [] => Done []
    | dim_size :: l' =>
        d <- (if negb (dim_size =? -1)%Z then unwrap (to_usize dim_size) "called `Option::unwrap()` on a `None` value"
              else
                let product := fold_left Z.mul (data shape_arr) 1%Z in
                p <- unwrap (to_usize (- product)) "called `Option::unwrap()` on a `None` value" ;;
                if (p =? 0)%Z then Panic "attempt to divide by zero"
                else Done (Z.of_nat (len x) / p)%Z) ;;
        rest <- go l' ;; Done (d :: rest)
    end in
  go (data shape_arr).

(** [into_shape] with a shape given as [usize] values. *)
Definition into_shape_z (a : NdArray Z) (t : list Z) : option (NdArray Z) :=
  if (fold_left Z.mul t 1 =? Z.of_nat (len a))%Z then Some (mkArr (map Z.to_nat t) (data a))
  else None.

(** [ndarray_ext::deep_copy]: an owned copy of the same elements. *)
Definition deep_copy (x : NdArrayView) : NdArray Z := view x.

(** Every array of this model is in standard (row-major contiguous) layout,
    so [x.is_standard_layout()] holds and the first branch is taken. *)
Definition Reshape_compute (xs : list NdArrayView) : ComputeResults :=
  x <- index_slice xs 0 ;;
  shape_arr <- index_slice xs 1 ;;
  target <- reshape_target (view x) (view shape_arr) ;;
  ret <- (match into_shape_z (view x) target with
          | Some a => Done (Ok (View (mkView (storage x) a)))
          | None =>
              match into_shape_z (deep_copy x) target with
              | Some a => Done (Ok (Owned a))
              | None => Panic "Reshape failed"
              end
          end) ;;
  Done [ret].

(** ** Broadcasting element-wise updates *)

(** The index of the broadcast source read for the target index [idx]:
    axes are aligned from the end, and an axis of extent 1 is read at 0. *)
Definition broadcast_index (from idx : list nat) : list nat :=
  map (fun '(d, i) => if Nat.eqb d 1 then 0 else i)
      (combine from (skipn (length idx - length from) idx)).

(** Whether [from] broadcasts to [to]. *)
Definition can_broadcast (from to : list nat) : bool :=
  Nat.leb (length from) (length to) &&
  forallb (fun '(f, t) => Nat.eqb f t || Nat.eqb f 1)
          (combine from (skipn (length to - length from) to)).

(** [a.zip_mut_with(b, f)]: [b] is broadcast to the shape of [a]. *)
Definition zip_mut_with {A : Type} `{Zeroed A} (f : A -> A -> A) (a b : NdArray A) : Outcome (NdArray A) :=
  if list_nat_eqb (shape a) (shape b)
  then Done (build (shape a) (fun idx => f (at_ a idx) (at_ b idx)))
  else if can_broadcast (shape b) (shape a)
  then Done (build (shape a) (fun idx => f (at_ a idx) (at_ b (broadcast_index (shape b) idx))))
  else Panic "ndarray: could not broadcast array".

(** [a.mapv(f)]. *)
Definition mapv {A B : Type} (f : A -> B) (a : NdArray A) : NdArray B :=
  mkArr (shape a) (map f (data a)).

(** ** Sub-arrays along an axis *)

(** Insert [v] at position [k] of a multi-index. *)
Fixpoint insert_at {A : Type} (k : nat) (v : A) (l : list A) : list A :=
  match k, l with
  | O, _ => v :: l
  | S k', [] => [v]
  | S k', x :: l' => x :: insert_at k' v l'
  end.

(** [a.index_axis(Axis(k), j)] for [j] in range. *)
Definition index_axis {A : Type} `{Zeroed A} (a : NdArray A) (k j : nat) : NdArray A :=
  build (remove_at k (shape a)) (fun idx => at_ a (insert_at k j idx)).

(** [a.axis_iter(Axis(k))]. *)
Definition axis_iter {A : Type} `{Zeroed A} (a : NdArray A) (k : nat) : list (NdArray A) :=
  map (index_axis a k) (seq 0 (ax_len a k)).

(** [&l[k..]] on a Rust slice. *)
Definition suffix_slice {A : Type} (l : list A) (k : Z) : Outcome (list A) :=
  if (k <=? Z.of_nat (length l))%Z then Done (skipn (Z.to_nat k) l)
  else Panic "range start index out of range".

(** [&l[..k]] on a Rust slice. *)
Definition prefix_slice_z {A : Type} (l : list A) (k : Z) : Outcome (list A) :=
  if (k <=? Z.of_nat (length l))%Z then Done (firstn (Z.to_nat k) l)
  else Panic "range end index out of range".

(** ** GatherGrad *)

(** One iteration of the loop of [GatherGrad::compute]: [gx] sliced to
    [i..i+1] along [axis], squeezed, and [gy_sub] added into it. *)
Definition gather_grad_step (axis : nat) (gx : NdArray Z) (gy_sub : NdArray Z) (i : Z)
  : Outcome (NdArray Z) :=
  rs <- do_slices (shape gx)
          (map (fun dim => if Nat.eqb dim axis then mkSlice i (Some (i + 1)%Z) else full_slice)
               (seq 0 (ndim gx))) ;;
  let '(st, en) := nth axis rs (0, 0) in
  (* [index_axis_move(Axis(axis), 0)] on the sliced view *)
  if Nat.eqb (en - st) 0 then Panic "assertion failed: index < dim"
  else
    let gx_sliced := index_axis gx axis st in
    upd <- zip_mut_with Z.add gx_sliced gy_sub ;;
    Done (build (shape gx)
            (fun idx => if Nat.eqb (nth axis idx 0) st then at_ upd (remove_at axis idx)
                        else at_ gx idx)).

Fixpoint gather_grad_loop (axis : nat) (gx : NdArray Z) (pairs : list (NdArray Z * Z))
  : Outcome (NdArray Z) :=
  match pairs with
  | [] => Done gx
  | (gy_sub, i) :: rest => gx' <- gather_grad_step axis gx gy_sub i ;; gather_grad_loop axis gx' rest
  end.

(** The inputs are standard-layout arrays (see the header), on which
    [into_shape] checks only the element count. *)
Definition GatherGrad_compute (axis : Z) (xs : list NdArrayView) : ComputeResults :=
  indices <- index_slice xs 0 ;;
  param <- index_slice xs 1 ;;
  let param_shape := shape (view param) in
  gy <- index_slice xs 2 ;;
  let axis := if (axis =? -1)%Z then Z.of_nat (ndim (view param)) else as_usize axis in
  (* get read-only view of gy and reshape it *)
  former <- prefix_slice_z param_shape axis ;;
  latter <- suffix_slice param_shape (axis + 1) ;;
  gy <- unwrap (into_shape (view gy) (former ++ [len (view indices)] ++ latter))
          "called `Result::unwrap()` on an `Err` value" ;;
  let ax := Z.to_nat axis in
  let gx := zeros (shape (view param)) in
  gx <- gather_grad_loop ax gx (combine (axis_iter gy ax) (data (view indices))) ;;
  Done [Ok (Owned gx)].

(** ** ExpandDims / Squeeze *)

Fixpoint insert_sorted (z : Z) (l : list Z) : list Z :=
  match l with
  | [] => [z]
  | y :: l' => if (z <=? y)%Z then z :: l else y :: insert_sorted z l'
  end.

(** [axes.sort()]. *)
Definition sort_z (l : list Z) : list Z := fold_right insert_sorted [] l.

(** [Vec::insert(index, v)]: panics when [index > len]. *)
Definition vec_insert (index : Z) (v : nat) (l : list nat) : Outcome (list nat) :=
  if (index <=? Z.of_nat (length l))%Z then Done (insert_at (Z.to_nat index) v l)
  else Panic "insertion index should be <= len".

(** [x.index_axis_move(Axis(axis), 0)]. *)
Definition index_axis_move0 (a : NdArray Z) (axis : nat) : NdArray Z := index_axis a axis 0.

(** The input is a standard-layout array (see the header), on which
    [into_shape] checks only the element count. *)
Definition ExpandDims_compute (xs : list NdArrayView) : ComputeResults :=
  ret <- index_slice xs 0 ;;
  axes_arr <- index_slice xs 1 ;;
  let axes := sort_z (data (view axes_arr)) in
  output_shape <-
    fold_left (fun acc i =>
                 output_shape <- acc ;;
                 let axis := if (i <? 0)%Z then as_usize (Z.of_nat (ndim (view ret)) + i)
                             else as_usize i in
                 vec_insert axis 1 output_shape)
              axes (Done (shape (view ret))) ;;
  a <- unwrap (into_shape (view ret) output_shape) "called `Result::unwrap()` on an `Err` value" ;;
  Done [Ok (View (mkView (storage ret) a))].

Definition Squeeze_compute (xs : list NdArrayView) : ComputeResults :=
  x0 <- index_slice xs 0 ;;
  axes_arr <- index_slice xs 1 ;;
  let axes := sort_z (data (view axes_arr)) in
  st <-
    fold_left (fun acc i =>
                 xa <- acc ;;
                 let '(x, adjust) := xa in
                 let axis := if (i <? 0)%Z then as_usize (Z.of_nat (ndim x) + i) else as_usize i in
                 if (axis <? adjust)%Z then Panic "attempt to subtract with overflow"
                 else
                   let axis := (axis - adjust)%Z in
                   d <- shape_at x axis ;;
                   if negb (Nat.eqb 1 d) then Panic "Can't squeeze a dim whose size != 1"
                   else Done (index_axis_move0 x (Z.to_nat axis), (adjust + 1)%Z))
              axes (Done (view x0, 0%Z)) ;;
  Done [Ok (View (mkView (storage x0) (fst st)))].

(** ** AddN *)

(** [&a + &b], and [base += &x]. *)
Definition arr_add (a b : NdArray Z) : Outcome (NdArray Z) := zip_mut_with Z.add a b.

Definition AddN_compute (xs : list NdArrayView) : ComputeResults :=
  match xs with
  | [] => Panic "internal error: entered unreachable code"
  | [x] => Done [Ok (View x)]
  | [x0; x1] => r <- arr_add (view x0) (view x1) ;; Done [Ok (Owned r)]
  | x0 :: x1 :: rest =>
      base <- arr_add (view x0) (view x1) ;;
      base <- fold_left (fun acc x => base <- acc ;; arr_add base (view x)) rest (Done base) ;;
      Done [Ok (Owned base)]
  end.

(** ** Clip / ClipGrad, ReLU *)

Definition Clip_compute (min max : Z) (xs : list NdArrayView) : ComputeResults :=
  x <- index_slice xs 0 ;;
  Done [Ok (Owned (mapv (fun a => Z.max (Z.min a max) min) (view x)))].

Definition ClipGrad_compute (min max : Z) (xs : list NdArrayView) : ComputeResults :=
  x <- index_slice xs 0 ;;
  (* x > min && x < max *)
  let ret := mapv (fun x => ((if (min <? x)%Z then 1 else 0) * (if (x <? max)%Z then 1 else 0))%Z)
                  (view x) in
  gy <- index_slice xs 1 ;;
  ret <- zip_mut_with Z.mul ret (view gy) ;;
  Done [Ok (Owned ret)].

Definition ReLU_compute (xs : list NdArrayView) : ComputeResults :=
  x <- index_slice xs 0 ;;
  Done [Ok (Owned (mapv (fun a => Z.max a 0) (view x)))].

(** Modelled from the spec: [ops::greater] (in [math_ops], not part of the
    excerpt), the element-wise indicator [1] where [a > b] and [0]
    elsewhere, [b] broadcast to the shape of [a]. *)
Definition greater_compute (a b : NdArray Z) : Outcome (NdArray Z) :=
  zip_mut_with (fun x y => if (y <? x)%Z then 1%Z else 0%Z) a b.

(** Modelled from the spec: [ops::mul] (in [math_ops], not part of the
    excerpt), the element-wise product with broadcasting. *)
Definition mul_compute (a b : NdArray Z) : Outcome (NdArray Z) := zip_mut_with Z.mul a b.

(** ** Tile, Split / SplitGrad *)

(** Modelled from the spec: [ndarray_ext::normalize_negative_axis] (not part
    of the excerpt), an axis counted from the end when negative, written as
    the other operators of the file write it inline. *)
Definition normalize_negative_axis (axis : Z) (ndim : nat) : Z :=
  if (axis <? 0)%Z then as_usize (Z.of_nat ndim + axis) else as_usize axis.

Definition Tile_compute (axis : Z) (num : nat) (xs : list NdArrayView) : ComputeResults :=
  x <- index_slice xs 0 ;;
  let axis := normalize_negative_axis axis (ndim (view x)) in
  let views := repeat (view x) num in
  match stack axis views with
  | Some ret => Done [Ok (Owned ret)]
  | None => Panic "Shape Incompatible"
  end.

(** [make_indices_for_split]: the slice [start_index..end_index] on [axis],
    the full slice on every other axis. *)
Definition make_indices_for_split (x : NdArray Z) (start_index end_index : Z) (axis : Z)
  : Outcome (list UnitSlice) :=
  let ndim := ndim x in
  if (axis <? Z.of_nat ndim)%Z
  then Done (map (fun i => if (Z.of_nat i =? axis)%Z
                           then mkSlice start_index (Some end_index)
                           else full_slice)
                 (seq 0 ndim))
  else Panic "Wrong split axis".

(** [ret.slice_collapse(&indices)] on a clone of the input view. *)
Definition Split_compute (axis start_index end_index : Z) (xs : list NdArrayView) : ComputeResults :=
  x <- index_slice xs 0 ;;
  let axis := normalize_negative_axis axis (ndim (view x)) in
  indices <- make_indices_for_split (view x) start_index end_index axis ;;
  ret <- slice_move (view x) indices ;;
  Done [Ok (View (mkView (storage x) ret))].

(** Whether [idx] lies in the region [rs] (one range per axis). *)
Definition in_region (idx : list nat) (rs : list (nat * nat)) : bool :=
  forallb (fun k => Nat.leb (fst (nth k rs (0, 0))) (nth k idx 0) &&
                    Nat.ltb (nth k idx 0) (snd (nth k rs (0, 0))))
          (seq 0 (length rs)).

(** [a.slice_mut(indices).zip_mut_with(b, f)]: the region of [a] selected by
    [indices] is updated with [b] broadcast to its shape; the rest of [a] is
    unchanged. *)
Definition slice_mut_zip_with (f : Z -> Z -> Z) (a : NdArray Z) (sls : list UnitSlice) (b : NdArray Z)
  : Outcome (NdArray Z) :=
  sub <- slice_move a sls ;;
  rs <- do_slices (shape a) sls ;;
  upd <- zip_mut_with f sub b ;;
  Done (build (shape a)
          (fun idx => if in_region idx rs
                      then at_ upd (map (fun '(i, r) => i - fst r) (combine idx rs))
                      else at_ a idx)).

Definition SplitGrad_compute (axis start_index end_index : Z) (xs : list NdArrayView) : ComputeResults :=
  x <- index_slice xs 0 ;;
  gy <- index_slice xs 1 ;;
  let gx := zeros (shape (view x)) in
  let axis := normalize_negative_axis axis (ndim (view x)) in
  indices <- make_indices_for_split (view x) start_index end_index axis ;;
  gx <- slice_mut_zip_with (fun _ g => g) gx indices (view gy) ;;
  Done [Ok (Owned gx)].

(** The ranges [do_slices] yields for [make_indices_for_split]. *)
Definition split_ranges (s : list nat) (ax st en : nat) : list (nat * nat) :=
  map (fun i => if Nat.eqb i ax then (st, en) else (0, nth i s 0)) (seq 0 (length s)).

(** ** Softmax *)

(** [a.fold_axis(Axis(k), init, fold)]: the array of shape
    [a.shape() \ k] whose element at [idx] folds, from [init], the lane of
    [a] along [k] through [idx] (ndarray zips the result with each subview of
    [axis_iter(Axis(k))] in turn). *)
Definition fold_axis {A : Type} `{Zeroed A} (a : NdArray A) (k : nat) (init : A) (fold : A -> A -> A)
  : NdArray A :=
  build (remove_at k (shape a))
        (fun idx => fold_left (fun acc j => fold acc (at_ a (insert_at k j idx)))
                              (seq 0 (ax_len a k)) init).

(** [a.sum_axis(Axis(k))]. *)
Definition sum_axis (a : NdArray R) (k : nat) : NdArray R :=
  build (remove_at k (shape a))
        (fun idx => fold_right Rplus 0%R (map (fun j => at_ a (insert_at k j idx)) (seq 0 (ax_len a k)))).

(** [softmax_forward(x, axis)] for a float type whose [T::min_value()] is
    [min_value]; float arithmetic is modelled by exact real arithmetic.
    [a[axis] = 1] panics unless the normalized axis is below the rank. *)
Definition softmax_forward (min_value : R) (x : NdArray R) (axis : Z) : Outcome (NdArray R) :=
  let axis := if (axis <? 0)%Z then as_usize (Z.of_nat (ndim x) + axis) else as_usize axis in
  reduced_shape <- (if (axis <? Z.of_nat (ndim x))%Z
                    then Done (set_nth (Z.to_nat axis) 1 (shape x))
                    else Panic "index out of bounds") ;;
  let k := Z.to_nat axis in
  max <- unwrap (into_shape (fold_axis x k min_value Rmax) reduced_shape)
                "called `Result::unwrap()` on an `Err` value" ;;
  (* subtract `max` to prevent overflow *)
  tmp <- zip_mut_with Rminus x max ;;
  let tmp := mapv exp tmp in
  sum <- unwrap (into_shape (sum_axis tmp k) reduced_shape)
                "called `Result::unwrap()` on an `Err` value" ;;
  tmp <- zip_mut_with Rdiv tmp sum ;;
  Done tmp.

(** [Softmax::compute]: the forward pass on the first input. *)
Definition Softmax_compute (min_value : R) (axis : Z) (xs : list (NdArray R))
  : Outcome (list (NdArray R)) :=
  x <- index_slice xs 0 ;;
  y <- softmax_forward min_value x axis ;;
  Done [y].

(** ** Sigmoid, Softplus, ELU / ELUGrad *)

(** The closure of [Sigmoid::compute]: [((a * half).tanh() * half) + half]
    with [half = 0.5]. *)
Definition sigmoid_elem (a : R) : R := (tanh (a * / 2) * / 2 + / 2)%R.

Definition Sigmoid_compute (xs : list (NdArray R)) : Outcome (list (NdArray R)) :=
  x <- index_slice xs 0 ;;
  Done [mapv sigmoid_elem x].

(** The closure of [Softplus::compute]: [(a.exp() + 1).log(e)], the
    logarithm in base [e = T::from(f64::consts::E)]. *)
Definition softplus_elem (a : R) : R := Rlog (exp 1) (exp a + 1).

Definition Softplus_compute (xs : list (NdArray R)) : Outcome (list (NdArray R)) :=
  x <- index_slice xs 0 ;;
  Done [mapv softplus_elem x].

(** The closure of [ELU::compute]. *)
Definition elu_elem (alpha a : R) : R :=
  if Rlt_dec 0 a then a else (alpha * (exp a - 1))%R.

Definition ELU_compute (alpha : R) (xs : list (NdArray R)) : Outcome (list (NdArray R)) :=
  x <- index_slice xs 0 ;;
  Done [mapv (elu_elem alpha) x].

(** The closure of [ELUGrad::compute]. *)
Definition elu_grad_elem (alpha a : R) : R :=
  if Rlt_dec 0 a then 1%R else (alpha * (exp a - 1) + alpha)%R.

(** [a * gy]: the owned [a] is multiplied in place by [gy], broadcast to its
    shape. *)
Definition ELUGrad_compute (alpha : R) (xs : list (NdArray R)) : Outcome (list (NdArray R)) :=
  x <- index_slice xs 0 ;;
  gy <- index_slice xs 1 ;;
  let a := mapv (elu_grad_elem alpha) x in
  r <- zip_mut_with Rmult a gy ;;
  Done [r].

(** ** The gradient protocol: operators and graph nodes *)

(** [ndarray::SliceOrIndex], the parameter of [Slice] and [SliceGrad]. *)
Inductive SliceOrIndex : Type :=
| SOI_Slice (start : Z) (end_ : option Z) (step : Z)
| SOI_Index (i : Z).

(** The operator variants of the two files, with their parameters. *)
Inductive Op : Type :=
| ELU (alpha : Z)
| ELUGrad (alpha : Z)
| Identity
| ReLU
| Sigmoid
| Softplus
| Softmax (axis : Z)
| ExpandDims
| Squeeze
| Slice (indices : list SliceOrIndex)
| SliceGrad (indices : list SliceOrIndex)
| Split (axis start_index end_index : Z)
| SplitGrad (axis start_index end_index : Z)
| Tile (axis : Z) (num : nat)
| Concat (axis : Z)
| ConcatGrad (axis : Z) (index : nat)
| Clip (min max : Z)
| ClipGrad (min max : Z)
| AddN
| Gather (axis : Z) (should_normalize_negative_indices : bool)
| GatherGrad (axis : Z)
| IndexOp (index : Z)
| IndexOpGrad (index : Z)
| SetDiff1D
| Shape
| Rank
| Size
| Reshape
| InferBinOpShape.

(** A graph node ([Tensor]) as a gradient method builds it.  [Node n] is an
    existing node (the incoming gradient, an input or the output); cloning a
    [Tensor] handle yields the same node.  [Built op inputs shape] is
    [Tensor::builder().set_inputs(inputs).set_shape(shape).build(op)]; the
    [ops_*] constructors are the helper functions of the [ops] module. *)
Inductive Tensor : Type :=
| Node (id : nat)
| Built (op : Op) (inputs : list Tensor) (shape_hint : option Tensor)
| ops_shape (x : Tensor)
| ops_scalar (v : Z)
| ops_greater (a b : Tensor)
| ops_mul (a b : Tensor)
| ops_sub (a b : Tensor)
| ops_add (a b : Tensor)
| ops_div (a b : Tensor)
| ops_exp (x : Tensor)
| ops_square (x : Tensor)
| ops_reduce_sum (x : Tensor) (axes : list Z) (keep_dims : bool)
| ops_expand_dims (x axes : Tensor)
| ops_squeeze (x axes : Tensor).

(** [op.grad(gy, inputs, output)]; indexing [inputs] out of range panics. *)
Definition op_grad (op : Op) (gy : Tensor) (inputs : list Tensor) (output : Tensor)
  : Outcome (list (option Tensor)) :=
  match op with
  | InferBinOpShape => Done [None; None]
  | Shape => Done [None]
  | Rank => Done [None]
  | Size => Done [None]
  | Reshape =>
      x0 <- index_slice inputs 0 ;;
      Done [Some (Built Reshape [gy; ops_shape x0] None); None]
  | SetDiff1D => Done [None; None]
  | IndexOp index =>
      x0 <- index_slice inputs 0 ;;
      Done [Some (Built (IndexOpGrad index) [x0; gy] (Some (ops_shape x0)))]
  | IndexOpGrad _ => Done [None]
  | Gather axis _ =>
      x0 <- index_slice inputs 0 ;; x1 <- index_slice inputs 1 ;;
      Done [None; Some (Built (GatherGrad axis) [x0; x1; gy] (Some (ops_shape x0)))]
  | GatherGrad _ => Done [None; None; None]
  | AddN => Done (repeat (Some gy) (length inputs))
  | Clip min max =>
      x0 <- index_slice inputs 0 ;;
      Done [Some (Built (ClipGrad min max) [x0; gy] (Some (ops_shape gy)))]
  | ClipGrad _ _ => Done [None; None]
  | Concat axis =>
      (* [x1, x2, x3, ..., gy] *)
      let merged_inputs := gy :: inputs in
      (* [inputs[0]] is read inside the closure, once per input *)
      match inputs with
      | [] => Done []
      | x0 :: _ =>
          Done (map (fun i => Some (Built (ConcatGrad axis i) merged_inputs (Some (ops_shape x0))))
                    (seq 0 (length inputs)))
      end
  | ConcatGrad _ _ => Done (repeat None (length inputs))
  | Tile axis _ => Done [Some (ops_reduce_sum gy [axis] true)]
  | Split axis st en =>
      x0 <- index_slice inputs 0 ;;
      Done [Some (Built (SplitGrad axis st en) [x0; gy] (Some (ops_shape x0)))]
  | SplitGrad _ _ _ => Done [None]
  | Slice indices =>
      x0 <- index_slice inputs 0 ;;
      Done [Some (Built (SliceGrad indices) [x0; gy] (Some (ops_shape x0)))]
  | SliceGrad _ => Done [None; None]
  | Squeeze =>
      x1 <- index_slice inputs 1 ;; Done [Some (ops_expand_dims gy x1); None]
  | ExpandDims =>
      x1 <- index_slice inputs 1 ;; Done [Some (ops_squeeze gy x1); None]
  | Softmax axis =>
      let sum := ops_reduce_sum (ops_mul output gy) [axis] true in
      Done [Some (ops_mul (ops_sub gy sum) output)]
  | Softplus =>
      x0 <- index_slice inputs 0 ;;
      let a := ops_exp x0 in
      let b := ops_add a (ops_scalar 1) in
      Done [Some (ops_mul gy (ops_div a b))]
  | Sigmoid => Done [Some (ops_mul gy (ops_sub output (ops_square output)))]
  | ReLU =>
      x0 <- index_slice inputs 0 ;;
      let bin := ops_greater x0 (ops_scalar 0) in
      Done [Some (ops_mul bin gy)]
  | Identity => Done [Some gy]
  | ELU alpha =>
      x0 <- index_slice inputs 0 ;;
      Done [Some (Built (ELUGrad alpha) [x0; gy] (Some (ops_shape gy)))]
  | ELUGrad _ => Done [None; None]
  end.

(** The grad-only variants: built only by the gradient methods of their
    forward counterparts. *)
Definition is_grad_only (op : Op) : bool :=
  match op with
  | ELUGrad _ | SliceGrad _ | SplitGrad _ _ _ | ConcatGrad _ _ | ClipGrad _ _
  | GatherGrad _ | IndexOpGrad _ => true
  | _ => false
  end.

(** ** Example inputs *)

(** A length-5 array and a 0-dimensional gradient [7]. *)
Definition x5 : NdArrayView := mkView 0 (mkArr [5] [10; 20; 30; 40; 50]%Z).
Definition g7 : NdArrayView := mkView 1 (arr0 7%Z).

(** Two blocks of shapes [2 x 2] and [2 x 3]: concatenable along axis 1
    only. *)
Definition m22 : NdArrayView := mkView 1 (mkArr [2; 2] [1; 2; 3; 4]%Z).
Definition m23 : NdArrayView := mkView 2 (mkArr [2; 3] [5; 6; 7; 8; 9; 10]%Z).

(** The same elements as strided views: [[10, 20, 30, 40, 50]] stored
    contiguously; the view that Split along axis 1 takes of the columns
    [0..2] of [m23] (shape [[2, 2]], strides [[3, 1]]); and the transposed
    [m23] (shape [[3, 2]], strides [[1, 3]]). *)
Definition x5s : StridedView := mkStrided 0 [10; 20; 30; 40; 50]%Z 0 [5] [1]%Z.
Definition m23_cols01 : StridedView := mkStrided 2 [5; 6; 7; 8; 9; 10]%Z 0 [2; 2] [3; 1]%Z.
Definition m23_t : StridedView := mkStrided 2 [5; 6; 7; 8; 9; 10]%Z 0 [3; 2] [1; 3]%Z.

(** The upstream gradient of [Concat(axis 0)] of a length-2 and a length-3
    vector, and the two inputs. *)
Definition gy5 : NdArrayView := mkView 3 (mkArr [5] [10; 11; 12; 13; 14]%Z).
Definition v2 : NdArrayView := mkView 4 (mkArr [2] [0; 0]%Z).
Definition v3 : NdArrayView := mkView 5 (mkArr [3] [0; 0; 0]%Z).

(** Six elements, and the target shape [[-1, 4]] (4 does not divide 6). *)
Definition x6 : NdArrayView := mkView 6 (mkArr [2; 3] [1; 2; 3; 4; 5; 6]%Z).
Definition shape_m1_4 : NdArrayView := mkView 7 (mkArr [2] [-1; 4]%Z).

(** A length-3 vector. *)
Definition x3v : NdArrayView := mkView 20 (mkArr [3] [1; 2; 3]%Z).

(** Inputs [0 .. 4] around the bounds [1] and [3], and a gradient of 7s. *)
Definition clip_x : NdArrayView := mkView 0 (mkArr [5] [0; 1; 2; 3; 4]%Z).
Definition clip_gy : NdArrayView := mkView 1 (mkArr [5] [7; 7; 7; 7; 7]%Z).

(** Gather inputs: indices [[0, 0, 1]] into a length-3 parameter, and an
    incoming gradient [[1, 2, 4]]. *)
Definition idx001 : NdArrayView := mkView 10 (mkArr [3] [0; 0; 1]%Z).
Definition param3 : NdArrayView := mkView 11 (mkArr [3] [0; 0; 0]%Z).
Definition gy124 : NdArrayView := mkView 12 (mkArr [3] [1; 2; 4]%Z).

(** The axes [[-1]] and [[2, 0]]. *)
Definition axes_m1 : NdArrayView := mkView 21 (mkArr [1] [-1]%Z).
Definition axes_2_0 : NdArrayView := mkView 21 (mkArr [2] [2; 0]%Z).

(** A [2 x 2] float input for Softmax along axis 1. *)
Definition x22r : NdArray R := mkArr [2; 2] [1; 2; 3; 4]%R.

(** A float input with one negative and one positive element, and an
    incoming gradient of its shape. *)
Definition elu_x : NdArray R := mkArr [2] [-1; 2]%R.
Definition elu_gy : NdArray R := mkArr [2] [3; 4]%R.


(** A gradient for the columns [1..3] of [m23]. *)
Definition split_gy : NdArrayView := mkView 40 (mkArr [2; 2] [1; 2; 3; 4]%Z).



(** Graph nodes standing for an operator's input, its output and the
    incoming gradient. *)
Definition t_x : Tensor := Node 0.
Definition t_gy : Tensor := Node 1.
Definition t_y : Tensor := Node 2.
Definition t_axes : Tensor := Node 3.

(** * Properties *)

(** ** Lists and flat positions *)

Lemma length_set_nth {A : Type} (i : nat) (v : A) (l : list A) :
  length (set_nth i v l) = length l.
Proof.
  revert i; induction l as [|x l IH]; intros [|i]; simpl; auto.
Qed.

Lemma nth_set_nth {A : Type} (i p : nat) (v d : A) (l : list A) :
  i < length l ->
  nth p (set_nth i v l) d = if Nat.eqb p i then v else nth p l d.
Proof.
  revert i p; induction l as [|x l IH]; intros i p Hi; simpl in Hi; [lia|].
  destruct i as [|i], p as [|p]; simpl; auto.
  apply IH; lia.
Qed.

Lemma length_zeros_data (s : list nat) : length (data (zeros s)) = prod s.
Proof. unfold zeros, build; simpl. rewrite length_map, length_seq; reflexivity. Qed.

Lemma nth_zeros_data (s : list nat) (p : nat) : nth p (data (zeros s)) 0%Z = 0%Z.
Proof.
  unfold zeros, build; simpl.
  induction (seq 0 (prod s)) as [|q l IH] in p |- *; destruct p; simpl; auto.
Qed.

Lemma as_usize_small (z : Z) : (0 <= z < 2 ^ 64)%Z -> as_usize z = z.
Proof. intros H; unfold as_usize; apply Z.mod_small; exact H. Qed.

(** The resolved position is the index itself, or the index counted from
    the end when it is negative and not below [-n]. *)
Lemma resolve_index_cases (n : nat) (index : Z) :
  isize_range index -> (Z.of_nat n < 2 ^ 63)%Z ->
  ((0 <= index)%Z -> resolve_index n index = index) /\
  ((- Z.of_nat n <= index < 0)%Z -> resolve_index n index = (Z.of_nat n + index)%Z) /\
  ((index < - Z.of_nat n)%Z -> (Z.of_nat n <= resolve_index n index)%Z).
Proof.
  unfold isize_range, resolve_index; intros Hi Hn; split; [|split]; intros H.
  - destruct (Z.ltb_spec index 0); [lia|]. apply as_usize_small; lia.
  - destruct (Z.ltb_spec index 0); [|lia]. apply as_usize_small; lia.
  - destruct (Z.ltb_spec index 0); [|lia]. unfold as_usize.
    rewrite <- (Z.mod_add _ 1) by lia. rewrite Z.mod_small by lia. lia.
Qed.

Lemma resolve_index_nonneg (n : nat) (index : Z) : (0 <= resolve_index n index)%Z.
Proof.
  unfold resolve_index, as_usize; destruct (index <? 0)%Z; apply Z.mod_pos_bound; lia.
Qed.

Lemma flat_get_in (a : NdArray Z) (i : Z) :
  wf a -> (0 <= i < Z.of_nat (len a))%Z ->
  flat_get a i = Some (nth (Z.to_nat i) (data a) 0%Z).
Proof.
  unfold wf, flat_get; intros Hwf Hi.
  destruct (Z.leb_spec 0 i); [|lia]; destruct (Z.ltb_spec i (Z.of_nat (len a))); [|lia]; simpl.
  apply nth_error_nth'; lia.
Qed.

Lemma flat_get_out {A : Type} (a : NdArray A) (i : Z) :
  ~ (0 <= i < Z.of_nat (len a))%Z -> flat_get a i = None.
Proof.
  unfold flat_get; intros Hi.
  destruct (Z.leb_spec 0 i); destruct (Z.ltb_spec i (Z.of_nat (len a))); simpl; auto; lia.
Qed.

(** ** C4: IndexOp and IndexOpGrad *)

(** Claim C4.  On the contiguous [[10, 20, 30, 40, 50]] index [-1] reads
    flat position 4, and the gradient [7] lands at position 4.  But
    [x.view().into_shape(x.len()).unwrap()] fails on a view that is neither
    row- nor column-major contiguous: on the view Split returns for the
    columns [0..2] of the row-major [[5, 6, 7], [8, 9, 10]] (strides
    [[3, 1]]) IndexOp panics, although the resolved position 3 is below its
    4 elements, while IndexOpGrad on the same input succeeds.  On the
    transposed view (strides [[1, 3]]) IndexOp reads memory order: index 1
    gives 6, the element at [[1, 0]], not the row-major position 1 (8). *)
Theorem IndexOp_panics_on_noncontiguous_view :
  IndexOp_compute (-1) [x5s] = Done [Ok (Owned (arr0 50%Z))] /\
  IndexOpGrad_compute (-1) [x5; g7] = Done [Ok (Owned (mkArr [5] [0; 0; 0; 0; 7]%Z))] /\
  Split_compute 1 0 2 [m23] = Done [Ok (View (mkView 2 (sv_elements m23_cols01)))] /\
  sv_elements m23_cols01 = mkArr [2; 2] [5; 6; 8; 9]%Z /\
  resolve_index (sv_len m23_cols01) (-1) = 3%Z /\
  IndexOp_compute (-1) [m23_cols01] = Panic "called `Result::unwrap()` on an `Err` value" /\
  IndexOpGrad_compute (-1) [mkView 2 (sv_elements m23_cols01); g7] =
    Done [Ok (Owned (mkArr [2; 2] [0; 0; 0; 7]%Z))] /\
  sv_elements m23_t = mkArr [3; 2] [5; 8; 6; 9; 7; 10]%Z /\
  IndexOp_compute 1 [m23_t] = Done [Ok (Owned (arr0 6%Z))].
Proof. repeat split; vm_compute; reflexivity. Qed.

(** ** C1: ConcatGrad *)

(** Claim C1.  For [Concat] of a length-2 and a length-3 vector, the
    ConcatGrad node of slot 1 should return [gy[2..5]] (three elements).  It
    passes the extent [3] of [x1] as the {i end} of the slice, so it returns
    [gy[2..3]], a single element; slots 0 and 1 together cover three of the
    five elements of [gy]. *)
Theorem ConcatGrad_slot_slices_to_extent_not_offset_plus_extent :
  ConcatGrad_compute 0 0 [gy5; v2; v3] =
    Done [Ok (View (mkView 3 (mkArr [2] [10; 11]%Z)))] /\
  ConcatGrad_compute 0 1 [gy5; v2; v3] =
    Done [Ok (View (mkView 3 (mkArr [1] [12]%Z)))] /\
  shape (view v3) = [3].
Proof. split; [|split]; vm_compute; reflexivity. Qed.

(** ** C2: failures of Concat and Reshape *)

(** Claim C2 (as stated): the failures are not reported as an [Err] value;
    [compute] panics. *)
Lemma Concat_Reshape_failures_not_errors :
  Concat_compute 0 [m22; m23] = Panic "Can't concat arrays whose shapes are incompatible." /\
  Reshape_compute [x6; shape_m1_4] = Panic "Reshape failed".
Proof. split; vm_compute; reflexivity. Qed.

Lemma Concat_axis_normalized (axis : Z) (x0 : NdArrayView) (rest : list NdArrayView) :
  (if (axis <? 0)%Z then x <- index_slice (x0 :: rest) 0 ;; Done (normalize_axis axis (view x))
   else Done (as_usize axis)) = Done (normalize_axis axis (view x0)).
Proof. unfold normalize_axis; destruct (axis <? 0)%Z; reflexivity. Qed.

Lemma stack_incompatible (ax : Z) (a0 : NdArray Z) (rest : list (NdArray Z)) :
  (ax < Z.of_nat (ndim a0))%Z ->
  (exists a, In a (a0 :: rest) /\
     remove_at (Z.to_nat ax) (shape a) <> remove_at (Z.to_nat ax) (shape a0)) ->
  stack ax (a0 :: rest) = None.
Proof.
  intros Hax (a & Hin & Hne). unfold stack.
  destruct (Z.leb_spec (Z.of_nat (ndim a0)) ax); [lia|].
  destruct (forallb _ _) eqn:Hall; [|reflexivity].
  rewrite forallb_forall in Hall. specialize (Hall a Hin).
  unfold list_nat_eqb in Hall. destruct (list_eq_dec _ _ _); [contradiction|discriminate].
Qed.

(** Claim C2, amended.  Concat given arrays whose shapes differ off the
    concatenation axis, and Reshape given a target whose element count is
    not the input's size, both panic; neither [compute] ever returns an
    [Err] value. *)
Theorem Concat_Reshape_failures_panic :
  (forall (axis : Z) (x0 : NdArrayView) (rest : list NdArrayView),
     let ax := normalize_axis axis (view x0) in
     (ax < Z.of_nat (ndim (view x0)))%Z ->
     (exists x, In x (x0 :: rest) /\
        remove_at (Z.to_nat ax) (shape (view x)) <> remove_at (Z.to_nat ax) (shape (view x0))) ->
     exists m, Concat_compute axis (x0 :: rest) = Panic m) /\
  (forall (x shape_arr : NdArrayView),
     (forall t, reshape_target (view x) (view shape_arr) = Done t ->
        fold_left Z.mul t 1%Z <> Z.of_nat (len (view x))) ->
     exists m, Reshape_compute [x; shape_arr] = Panic m) /\
  (forall axis xs rs, Concat_compute axis xs = Done rs -> forall e, ~ In (Err e) rs) /\
  (forall xs rs, Reshape_compute xs = Done rs -> forall e, ~ In (Err e) rs).
Proof.
  split; [|split; [|split]].
  - intros axis x0 rest ax Hax (x & Hin & Hne).
    unfold Concat_compute. rewrite Concat_axis_normalized. cbn [obind map].
    rewrite stack_incompatible; [eauto|exact Hax|].
    exists (view x); split; [|exact Hne].
    destruct Hin as [->|Hin]; [left; reflexivity|right; apply in_map; exact Hin].
  - intros x sa Hne. unfold Reshape_compute; simpl.
    destruct (reshape_target (view x) (view sa)) as [t|m] eqn:Ht; simpl; [|eauto].
    specialize (Hne t eq_refl).
    unfold into_shape_z, deep_copy.
    destruct (Z.eqb_spec (fold_left Z.mul t 1%Z) (Z.of_nat (len (view x)))); [contradiction|].
    simpl; eauto.
  - intros axis xs rs H e Hin. unfold Concat_compute in H.
    destruct (if (axis <? 0)%Z then _ else _) as [ax|m]; simpl in H; [|discriminate].
    destruct (stack ax (map view xs)); inversion H; subst.
    destruct Hin as [Hin|[]]; discriminate.
  - intros xs rs H e Hin. unfold Reshape_compute in H.
    destruct (index_slice xs 0) as [x|m]; simpl in H; [|discriminate].
    destruct (index_slice xs 1) as [sa|m]; simpl in H; [|discriminate].
    destruct (reshape_target (view x) (view sa)) as [t|m]; simpl in H; [|discriminate].
    destruct (into_shape_z (view x) t); simpl in H.
    + inversion H; subst. destruct Hin as [Hin|[]]; discriminate.
    + destruct (into_shape_z (deep_copy x) t); simpl in H; [|discriminate].
      inversion H; subst. destruct Hin as [Hin|[]]; discriminate.
Qed.

Lemma Concat_Reshape_failures_panic_witness :
  (normalize_axis 0 (view m22) < Z.of_nat (ndim (view m22)))%Z /\
  (exists m, Concat_compute 0 [m22; m23] = Panic m) /\
  (exists m, Reshape_compute [x6; shape_m1_4] = Panic m).
Proof.
  destruct Concat_Reshape_failures_panic as (Hcat & Hresh & _ & _).
  assert (Hax : (normalize_axis 0 (view m22) < Z.of_nat (ndim (view m22)))%Z)
    by (vm_compute; reflexivity).
  split; [exact Hax|]. split.
  - apply (Hcat 0%Z m22 [m23] Hax). exists m23. split; [right; left; reflexivity|].
    vm_compute. discriminate.
  - apply Hresh. intros t Ht. vm_compute in Ht. inversion Ht; subst. vm_compute. discriminate.
Defined.

(** ** C9: one gradient slot per input *)

(** Claim C9.  [IndexOp::grad] builds an IndexOpGrad node with two inputs
    [[x, gy]], and [IndexOpGrad::compute] reads both of them (with only [x]
    it panics); yet [IndexOpGrad::grad] returns a single slot.  [Split] and
    [SplitGrad] have the same mismatch.  Every other grad-only variant returns
    one slot per input. *)
Theorem grad_slots_fewer_than_inputs :
  op_grad (IndexOp (-1)) t_gy [t_x] t_y =
    Done [Some (Built (IndexOpGrad (-1)) [t_x; t_gy] (Some (ops_shape t_x)))] /\
  op_grad (IndexOpGrad (-1)) t_gy [t_x; t_gy] t_y = Done [None] /\
  IndexOpGrad_compute (-1) [x5] = Panic "index out of bounds" /\
  op_grad (Split 0 0 2) t_gy [t_x] t_y =
    Done [Some (Built (SplitGrad 0 0 2) [t_x; t_gy] (Some (ops_shape t_x)))] /\
  op_grad (SplitGrad 0 0 2) t_gy [t_x; t_gy] t_y = Done [None].
Proof. repeat split; reflexivity. Qed.

(** ** C10: grad-only variants stop the gradient *)

(** Claim C10.  Every grad-only variant (ELUGrad, SliceGrad, SplitGrad,
    ConcatGrad, ClipGrad, GatherGrad, IndexOpGrad) returns [None] in every
    slot of its own gradient, whatever its inputs. *)
Theorem grad_only_ops_return_no_gradient (op : Op) (gy output : Tensor) (inputs : list Tensor) :
  is_grad_only op = true ->
  exists slots, op_grad op gy inputs output = Done slots /\ Forall (fun o => o = None) slots.
Proof.
  intros H; destruct op; try discriminate H; simpl; eexists; split; try reflexivity;
    repeat constructor.
  apply Forall_forall; intros o Ho; apply repeat_spec in Ho; exact Ho.
Qed.

Lemma grad_only_ops_return_no_gradient_witness :
  is_grad_only (ConcatGrad 0 1) = true /\
  exists slots, op_grad (ConcatGrad 0 1) t_gy [t_gy; t_x; t_axes] t_y = Done slots /\
    Forall (fun o => o = None) slots.
Proof.
  split; [reflexivity|].
  apply (grad_only_ops_return_no_gradient (ConcatGrad 0 1) t_gy t_y [t_gy; t_x; t_axes]).
  reflexivity.
Defined.

(** ** Row-major positions *)

Lemma ravel_unravel (s : list nat) (p : nat) :
  p < prod s -> ravel s (unravel s p) = p.
Proof.
  revert p; induction s as [|d s IH]; intros p Hp; simpl in *; [lia|].
  assert (HP : prod s <> 0) by (intros E; rewrite E in Hp; lia).
  rewrite IH by (apply Nat.mod_upper_bound; exact HP).
  rewrite (Nat.div_mod_eq p (prod s)) at 3. lia.
Qed.

Lemma ravel_lt (s idx : list nat) :
  in_range idx s = true -> ravel s idx < prod s.
Proof.
  revert idx; induction s as [|d s IH]; intros [|i idx] H; simpl in *; try discriminate; [lia|].
  apply andb_prop in H as [Hi H]. apply Nat.ltb_lt in Hi. specialize (IH idx H). nia.
Qed.

Lemma unravel_ravel (s idx : list nat) :
  in_range idx s = true -> unravel s (ravel s idx) = idx.
Proof.
  revert idx; induction s as [|d s IH]; intros [|i idx] H; simpl in *; try discriminate; auto.
  apply andb_prop in H as [Hi H]. pose proof (ravel_lt s idx H) as Hr.
  assert (HP : prod s <> 0) by lia.
  assert (E1 : (i * prod s + ravel s idx) / prod s = i).
  { rewrite Nat.div_add_l by exact HP. rewrite Nat.div_small by exact Hr. lia. }
  assert (E2 : (i * prod s + ravel s idx) mod prod s = ravel s idx).
  { rewrite (Nat.add_comm (i * prod s)), Nat.Div0.mod_add. apply Nat.mod_small, Hr. }
  rewrite E1, E2, IH by exact H. reflexivity.
Qed.

Lemma in_range_unravel (s : list nat) (p : nat) :
  p < prod s -> in_range (unravel s p) s = true.
Proof.
  revert p; induction s as [|d s IH]; intros p Hp; simpl in *; auto.
  assert (HP : prod s <> 0) by (intros E; rewrite E in Hp; lia).
  apply andb_true_intro; split.
  - apply Nat.ltb_lt, Nat.Div0.div_lt_upper_bound. lia.
  - apply IH, Nat.mod_upper_bound, HP.
Qed.

Lemma shape_build {A : Type} (s : list nat) (f : list nat -> A) : shape (build s f) = s.
Proof. reflexivity. Qed.

Lemma wf_build {A : Type} (s : list nat) (f : list nat -> A) : wf (build s f).
Proof. unfold wf, len, build; simpl. rewrite length_map, length_seq; reflexivity. Qed.

Lemma nth_build {A : Type} (s : list nat) (f : list nat -> A) (p : nat) (d : A) :
  p < prod s -> nth p (data (build s f)) d = f (unravel s p).
Proof.
  intros Hp; unfold build; simpl.
  rewrite (nth_indep _ d (f (unravel s 0))) by (rewrite length_map, length_seq; exact Hp).
  rewrite (map_nth (fun p => f (unravel s p))), seq_nth by exact Hp. reflexivity.
Qed.

Lemma at_build {A : Type} `{Zeroed A} (s : list nat) (f : list nat -> A) (idx : list nat) :
  in_range idx s = true -> at_ (build s f) idx = f idx.
Proof.
  intros Hin; unfold at_; rewrite shape_build, nth_build by (apply ravel_lt, Hin).
  rewrite unravel_ravel by exact Hin. reflexivity.
Qed.

Lemma at_unravel {A : Type} `{Zeroed A} (a : NdArray A) (p : nat) :
  p < len a -> at_ a (unravel (shape a) p) = nth p (data a) zero.
Proof. intros Hp; unfold at_; rewrite ravel_unravel by exact Hp; reflexivity. Qed.

Lemma nth_mapv_data (f : Z -> Z) (a : NdArray Z) (p : nat) :
  p < length (data a) -> nth p (data (mapv f a)) 0%Z = f (nth p (data a) 0%Z).
Proof.
  intros Hp; unfold mapv; simpl.
  rewrite (nth_indep _ 0%Z (f 0%Z)) by (rewrite length_map; exact Hp).
  apply map_nth.
Qed.

Lemma list_nat_eqb_refl (l : list nat) : list_nat_eqb l l = true.
Proof. unfold list_nat_eqb; destruct (list_eq_dec _ _ _); congruence. Qed.

(** Element-wise update of two arrays of one shape. *)
Lemma zip_mut_with_same_shape (f : Z -> Z -> Z) (a b : NdArray Z) :
  shape b = shape a -> wf a -> wf b ->
  exists r, zip_mut_with f a b = Done r /\ shape r = shape a /\ wf r /\
    forall p, p < len a -> nth p (data r) 0%Z = f (nth p (data a) 0%Z) (nth p (data b) 0%Z).
Proof.
  intros Hs Ha Hb. unfold zip_mut_with. rewrite Hs, list_nat_eqb_refl.
  eexists; split; [reflexivity|]. split; [reflexivity|]. split; [apply wf_build|].
  intros p Hp. rewrite nth_build by exact Hp.
  rewrite (at_unravel a p Hp). rewrite <- Hs. rewrite (at_unravel b p) by (unfold len; rewrite Hs; exact Hp).
  reflexivity.
Qed.

(** ** C7: AddN *)

Lemma AddN_fold_sum (s : list nat) (rest : list NdArrayView) (base : NdArray Z) :
  shape base = s -> wf base ->
  Forall (fun x => shape (view x) = s /\ wf (view x)) rest ->
  exists y, fold_left (fun acc x => base <- acc ;; arr_add base (view x)) rest (Done base) = Done y /\
    shape y = s /\ wf y /\
    forall p, p < prod s ->
      nth p (data y) 0%Z =
        (nth p (data base) 0%Z + fold_right Z.add 0 (map (fun x => nth p (data (view x)) 0%Z) rest))%Z.
Proof.
  revert base; induction rest as [|x rest IH]; intros base Hs Hwf Hall; cbn [fold_left obind].
  - exists base; repeat split; auto. intros p _; simpl; lia.
  - apply Forall_cons_iff in Hall as [[Hxs Hxwf] Hrest].
    destruct (zip_mut_with_same_shape Z.add base (view x)) as (r & Hr & Hrs & Hrwf & Hrn);
      [congruence|exact Hwf|exact Hxwf|].
    unfold arr_add at 2; rewrite Hr.
    destruct (IH r ltac:(congruence) Hrwf Hrest) as (y & Hy & Hys & Hywf & Hyn).
    exists y; repeat split; auto.
    intros p Hp. rewrite Hyn by exact Hp. rewrite Hrn by (unfold len; rewrite Hs; exact Hp).
    cbn [map fold_right]. lia.
Qed.

(** Claim C7.  With one input, AddN returns a [View] of that very input
    (same storage, same window: nothing is copied); with two or more inputs
    of one shape it returns a fresh [Owned] array holding their element-wise
    sum; its gradient is the incoming gradient node itself, once per input. *)
Theorem AddN_spec :
  (forall x : NdArrayView, AddN_compute [x] = Done [Ok (View x)]) /\
  (forall (x0 x1 : NdArrayView) (rest : list NdArrayView),
     Forall (fun x => shape (view x) = shape (view x0) /\ wf (view x)) (x0 :: x1 :: rest) ->
     exists y, AddN_compute (x0 :: x1 :: rest) = Done [Ok (Owned y)] /\
       shape y = shape (view x0) /\ wf y /\
       forall p, p < len (view x0) ->
         nth p (data y) 0%Z =
           fold_right Z.add 0%Z (map (fun x => nth p (data (view x)) 0%Z) (x0 :: x1 :: rest))) /\
  (forall (gy output : Tensor) (inputs : list Tensor),
     op_grad AddN gy inputs output = Done (repeat (Some gy) (length inputs))).
Proof.
  split; [|split]; [reflexivity| |reflexivity].
  intros x0 x1 rest Hall.
  apply Forall_cons_iff in Hall as [[_ H0wf] Hall1].
  apply Forall_cons_iff in Hall1 as [[H1s H1wf] Hrest].
  destruct (zip_mut_with_same_shape Z.add (view x0) (view x1)) as (b & Hb & Hbs & Hbwf & Hbn);
    [exact H1s|exact H0wf|exact H1wf|].
  destruct rest as [|x2 rest].
  - exists b. simpl AddN_compute. unfold arr_add; rewrite Hb. repeat split; auto.
    intros p Hp; simpl; rewrite Hbn by exact Hp; lia.
  - destruct (AddN_fold_sum (shape (view x0)) (x2 :: rest) b Hbs Hbwf Hrest)
      as (y & Hy & Hys & Hywf & Hyn).
    assert (Hb' : arr_add (view x0) (view x1) = Done b) by exact Hb.
    exists y. unfold AddN_compute; cbv beta iota. rewrite Hb'; cbn [obind].
    rewrite Hy. repeat split; auto.
    intros p Hp. rewrite Hyn by exact Hp. rewrite Hbn by exact Hp. simpl. lia.
Qed.

Lemma AddN_spec_witness :
  Forall (fun x => shape (view x) = shape (view x3v) /\ wf (view x)) [x3v; x3v; x3v] /\
  exists y, AddN_compute [x3v; x3v; x3v] = Done [Ok (Owned y)] /\
    shape y = [3] /\ wf y /\
    forall p, p < 3 ->
      nth p (data y) 0%Z =
        fold_right Z.add 0%Z (map (fun x => nth p (data (view x)) 0%Z) [x3v; x3v; x3v]).
Proof.
  assert (Hall : Forall (fun x => shape (view x) = shape (view x3v) /\ wf (view x)) [x3v; x3v; x3v])
    by (repeat constructor).
  split; [exact Hall|].
  destruct AddN_spec as (_ & Hsum & _).
  exact (Hsum x3v x3v [x3v] Hall).
Defined.

(** ** C5: boundary conventions of ClipGrad and ReLU *)

Lemma greater_zero_indicator (xv : NdArray Z) :
  wf xv ->
  exists b, greater_compute xv (arr0 0%Z) = Done b /\ shape b = shape xv /\ wf b /\
    forall p, p < len xv -> nth p (data b) 0%Z = (if (0 <? nth p (data xv) 0%Z)%Z then 1 else 0)%Z.
Proof.
  intros Hwf. unfold greater_compute, zip_mut_with.
  assert (Hz : forall idx, at_ (arr0 0%Z) idx = 0%Z) by reflexivity.
  destruct (list_nat_eqb (shape xv) (shape (arr0 0%Z))); [|replace (can_broadcast _ _) with true by reflexivity];
    (eexists; split; [reflexivity|]; split; [reflexivity|]; split; [apply wf_build|]);
    intros p Hp; rewrite nth_build by exact Hp; rewrite Hz, at_unravel by exact Hp; reflexivity.
Qed.

(** Claim C5.  ClipGrad passes the incoming gradient through exactly where
    [min < x < max] holds strictly and gives 0 elsewhere (also at [x = min]
    and [x = max]).  ReLU's forward is [max(x, 0)]; its gradient node is
    [greater(x, 0) * gy], which evaluates to [gy] where [x > 0] and to 0
    elsewhere, so to 0 at [x = 0]. *)
Theorem ClipGrad_ReLU_boundaries :
  (forall (min max : Z) (x gy : NdArrayView),
     wf (view x) -> wf (view gy) -> shape (view gy) = shape (view x) ->
     exists r, ClipGrad_compute min max [x; gy] = Done [Ok (Owned r)] /\
       shape r = shape (view x) /\ wf r /\
       forall p, p < len (view x) ->
         nth p (data r) 0%Z =
           (if (min <? nth p (data (view x)) 0%Z)%Z && (nth p (data (view x)) 0%Z <? max)%Z
            then nth p (data (view gy)) 0%Z else 0%Z)) /\
  (forall x : NdArrayView,
     ReLU_compute [x] = Done [Ok (Owned (mkArr (shape (view x)) (map (fun a => Z.max a 0) (data (view x)))))]) /\
  (forall (x gy output : Tensor),
     op_grad ReLU gy [x] output = Done [Some (ops_mul (ops_greater x (ops_scalar 0)) gy)]) /\
  (forall (xv gyv : NdArray Z),
     wf xv -> wf gyv -> shape gyv = shape xv ->
     exists r, (bin <- greater_compute xv (arr0 0%Z) ;; mul_compute bin gyv) = Done r /\
       shape r = shape xv /\ wf r /\
       forall p, p < len xv ->
         nth p (data r) 0%Z =
           (if (0 <? nth p (data xv) 0%Z)%Z then nth p (data gyv) 0%Z else 0%Z)).
Proof.
  split; [|split; [|split]].
  - intros min max x gy Hx Hgy Hs.
    set (ind := fun x0 => ((if (min <? x0)%Z then 1 else 0) * (if (x0 <? max)%Z then 1 else 0))%Z).
    assert (Hwr : wf (mapv ind (view x))) by (unfold wf, mapv, len in *; simpl; rewrite length_map; exact Hx).
    destruct (zip_mut_with_same_shape Z.mul (mapv ind (view x)) (view gy)) as (r & Hr & Hrs & Hrwf & Hrn);
      [exact Hs|exact Hwr|exact Hgy|].
    exists r. unfold ClipGrad_compute; cbn [obind index_slice unwrap nth_error].
    fold ind. rewrite Hr. repeat split; auto.
    intros p Hp. rewrite Hrn by exact Hp. rewrite nth_mapv_data by (rewrite Hx; exact Hp).
    unfold ind. destruct (min <? nth p (data (view x)) 0)%Z, (nth p (data (view x)) 0 <? max)%Z;
      cbn [andb]; lia.
  - reflexivity.
  - reflexivity.
  - intros xv gyv Hx Hgy Hs.
    destruct (greater_zero_indicator xv Hx) as (b & Hb & Hbs & Hbwf & Hbn).
    destruct (zip_mut_with_same_shape Z.mul b gyv) as (r & Hr & Hrs & Hrwf & Hrn);
      [congruence|exact Hbwf|exact Hgy|].
    exists r. rewrite Hb; cbn [obind]. unfold mul_compute; rewrite Hr.
    repeat split; [congruence|exact Hrwf|].
    intros p Hp. rewrite Hrn by (unfold len; rewrite Hbs; exact Hp). rewrite Hbn by exact Hp.
    destruct (0 <? _)%Z; lia.
Qed.

Lemma ClipGrad_ReLU_boundaries_witness :
  wf (view clip_x) /\ wf (view clip_gy) /\ shape (view clip_gy) = shape (view clip_x) /\
  (exists r, ClipGrad_compute 1 3 [clip_x; clip_gy] = Done [Ok (Owned r)] /\
     shape r = [5] /\ wf r /\
     forall p, p < 5 ->
       nth p (data r) 0%Z =
         (if (1 <? nth p (data (view clip_x)) 0%Z)%Z && (nth p (data (view clip_x)) 0%Z <? 3)%Z
          then nth p (data (view clip_gy)) 0%Z else 0%Z)) /\
  (exists r, (bin <- greater_compute (view clip_x) (arr0 0%Z) ;; mul_compute bin (view clip_gy)) = Done r /\
     shape r = [5] /\ wf r /\
     forall p, p < 5 ->
       nth p (data r) 0%Z =
         (if (0 <? nth p (data (view clip_x)) 0%Z)%Z then nth p (data (view clip_gy)) 0%Z else 0%Z)).
Proof.
  assert (Hx : wf (view clip_x)) by reflexivity.
  assert (Hg : wf (view clip_gy)) by reflexivity.
  assert (Hs : shape (view clip_gy) = shape (view clip_x)) by reflexivity.
  destruct ClipGrad_ReLU_boundaries as (Hclip & _ & _ & Hrelu).
  split; [exact Hx|]. split; [exact Hg|]. split; [exact Hs|]. split.
  - exact (Hclip 1%Z 3%Z clip_x clip_gy Hx Hg Hs).
  - exact (Hrelu (view clip_x) (view clip_gy) Hx Hg Hs).
Defined.

(** ** C3: GatherGrad *)

(** Claim C3.  Along axis 0, GatherGrad accumulates: with indices
    [[0, 0, 1]] and incoming gradient [[1, 2, 4]] position 0 receives
    [1 + 2].  Along the negative axis [-1] it panics before any scatter:
    [-1] is mapped to [param.ndim()] instead of [param.ndim() - 1], and
    [&param_shape[axis + 1..]] is then out of range; any other negative axis
    becomes a huge [usize] and panics as well. *)
Theorem GatherGrad_negative_axis_panics :
  GatherGrad_compute 0 [idx001; param3; gy124] = Done [Ok (Owned (mkArr [3] [3; 4; 0]%Z))] /\
  GatherGrad_compute (-1) [idx001; param3; gy124] = Panic "range start index out of range" /\
  GatherGrad_compute (-2) [idx001; param3; gy124] = Panic "range end index out of range".
Proof. repeat split; vm_compute; reflexivity. Qed.

(** ** C6: ExpandDims and Squeeze *)

(** Claim C6.  On [x = [1, 2, 3]] and the axes [[2, 0]] the round trip
    holds, but with the axes [[-1]] ExpandDims resolves [-1] against the rank
    of its input (1), inserting the unit axis in front (shape [[1, 3]]),
    while Squeeze resolves [-1] against the rank of {i its} input (2), hits
    the axis of extent 3 and panics. *)
Theorem Squeeze_ExpandDims_negative_axis_breaks_round_trip :
  ExpandDims_compute [x3v; axes_2_0] = Done [Ok (View (mkView 20 (mkArr [1; 3; 1] [1; 2; 3]%Z)))] /\
  Squeeze_compute [mkView 20 (mkArr [1; 3; 1] [1; 2; 3]%Z); axes_2_0] =
    Done [Ok (View (mkView 20 (mkArr [3] [1; 2; 3]%Z)))] /\
  ExpandDims_compute [x3v; axes_m1] = Done [Ok (View (mkView 20 (mkArr [1; 3] [1; 2; 3]%Z)))] /\
  Squeeze_compute [mkView 20 (mkArr [1; 3] [1; 2; 3]%Z); axes_m1] =
    Panic "Can't squeeze a dim whose size != 1".
Proof. repeat split; vm_compute; reflexivity. Qed.

(** ** C8: Softmax *)

(** *** Reduced axes *)

Lemma length_remove_at {A : Type} (k : nat) (l : list A) :
  k < length l -> length (remove_at k l) = length l - 1.
Proof.
  revert k; induction l as [|x l IH]; intros [|k] Hk; simpl in *; try lia.
  rewrite IH by lia. lia.
Qed.

Lemma remove_insert_at {A : Type} (k : nat) (v : A) (l : list A) :
  k <= length l -> remove_at k (insert_at k v l) = l.
Proof.
  revert k; induction l as [|x l IH]; intros [|k] Hk; simpl in *; try reflexivity; try lia.
  rewrite IH by lia. reflexivity.
Qed.

Lemma nth_insert_at {A : Type} (k : nat) (v d : A) (l : list A) :
  k <= length l -> nth k (insert_at k v l) d = v.
Proof.
  revert k; induction l as [|x l IH]; intros [|k] Hk; simpl in *; try reflexivity; try lia.
  apply IH; lia.
Qed.

Lemma insert_remove_at {A : Type} (k : nat) (d : A) (l : list A) :
  k < length l -> insert_at k (nth k l d) (remove_at k l) = l.
Proof.
  revert k; induction l as [|x l IH]; intros [|k] Hk; simpl in *; try reflexivity; try lia.
  rewrite IH by lia. reflexivity.
Qed.

Lemma in_range_length (idx s : list nat) : in_range idx s = true -> length idx = length s.
Proof.
  revert s; induction idx as [|i idx IH]; intros [|d s] H; simpl in *; try discriminate; auto.
  apply andb_prop in H as [_ H]. rewrite (IH s H). reflexivity.
Qed.

Lemma in_range_nth (idx s : list nat) (k : nat) :
  in_range idx s = true -> k < length s -> nth k idx 0 < nth k s 0.
Proof.
  revert s k; induction idx as [|i idx IH]; intros [|d s] k H Hk; simpl in *; try discriminate; try lia.
  apply andb_prop in H as [Hi H]. destruct k as [|k]; [apply Nat.ltb_lt, Hi|].
  apply IH; [exact H | lia].
Qed.

Lemma in_range_remove_at (idx s : list nat) (k : nat) :
  in_range idx s = true -> in_range (remove_at k idx) (remove_at k s) = true.
Proof.
  revert s k; induction idx as [|i idx IH]; intros [|d s] k H; try discriminate.
  - destruct k; reflexivity.
  - simpl in H. apply andb_prop in H as [Hi H]. destruct k as [|k]; simpl; [exact H|].
    rewrite Hi, (IH s k H). reflexivity.
Qed.

Lemma in_range_insert_at (r s : list nat) (k j : nat) :
  k < length s -> in_range r (remove_at k s) = true -> j < nth k s 0 ->
  in_range (insert_at k j r) s = true.
Proof.
  revert r s; induction k as [|k IH]; intros r [|d s] Hk Hr Hj; simpl in *; try lia.
  - rewrite Hr. apply andb_true_intro; split; [apply Nat.ltb_lt, Hj | reflexivity].
  - destruct r as [|i r]; simpl in Hr; [discriminate|].
    apply andb_prop in Hr as [Hi Hr]. simpl. rewrite Hi. apply IH; auto; lia.
Qed.

Lemma prod_set_nth_1 (s : list nat) (k : nat) :
  k < length s -> prod (set_nth k 1 s) = prod (remove_at k s).
Proof.
  revert k; induction s as [|d s IH]; intros [|k] Hk; simpl in *; try lia.
  rewrite IH by lia. reflexivity.
Qed.

Lemma ravel_set_nth_0 (s idx : list nat) (k : nat) :
  in_range idx s = true -> k < length s ->
  ravel (set_nth k 1 s) (set_nth k 0 idx) = ravel (remove_at k s) (remove_at k idx).
Proof.
  revert s k; induction idx as [|i idx IH]; intros [|d s] k H Hk; simpl in *; try discriminate; try lia.
  apply andb_prop in H as [_ H]. destruct k as [|k]; simpl; [lia|].
  rewrite prod_set_nth_1, IH by (auto; lia). reflexivity.
Qed.

(** Broadcasting an array of the reduced shape [s] with [s[k] = 1] reads it
    at the index with [idx[k]] replaced by 0. *)
Lemma broadcast_index_set_nth (s idx : list nat) (k : nat) :
  in_range idx s = true ->
  broadcast_index (set_nth k 1 s) idx = set_nth k 0 idx.
Proof.
  intros H. unfold broadcast_index.
  rewrite length_set_nth, (in_range_length idx s H), Nat.sub_diag. simpl.
  revert s k H; induction idx as [|i idx IH]; intros [|d s] k H; try discriminate.
  { destruct k; reflexivity. }
  simpl in H. apply andb_prop in H as [Hi H]. apply Nat.ltb_lt in Hi.
  destruct k as [|k]; simpl.
  - f_equal. clear IH Hi. revert s H; induction idx as [|i' idx IH']; intros [|d' s'] H;
      try discriminate; [reflexivity|].
    simpl in H. apply andb_prop in H as [Hi' H]. apply Nat.ltb_lt in Hi'. simpl.
    rewrite IH' by exact H. destruct (Nat.eqb_spec d' 1); [f_equal; lia | reflexivity].
  - rewrite IH by exact H. destruct (Nat.eqb_spec d 1); [f_equal; lia | reflexivity].
Qed.

Lemma can_broadcast_set_nth (s : list nat) (k : nat) :
  can_broadcast (set_nth k 1 s) s = true.
Proof.
  unfold can_broadcast. rewrite length_set_nth, Nat.leb_refl, Nat.sub_diag. simpl.
  revert k; induction s as [|d s IH]; intros [|k]; simpl; auto.
  - rewrite orb_true_r. simpl.
    clear IH. induction s as [|d' s IH']; simpl; auto. rewrite Nat.eqb_refl, IH'. reflexivity.
  - rewrite Nat.eqb_refl, IH. reflexivity.
Qed.

Lemma set_nth_nth {A : Type} (k : nat) (d : A) (l : list A) : set_nth k (nth k l d) l = l.
Proof.
  revert k; induction l as [|x l IH]; intros [|k]; simpl; auto. rewrite IH. reflexivity.
Qed.

(** Element-wise update of an array by an array of its shape reduced along
    [k] ([x - max] and [tmp /= &sum] in [softmax_forward]). *)
Lemma zip_mut_with_reduced {A : Type} `{Zeroed A} (f : A -> A -> A) (a b : NdArray A) (k : nat) :
  k < ndim a -> shape b = set_nth k 1 (shape a) ->
  exists r, zip_mut_with f a b = Done r /\ shape r = shape a /\ wf r /\
    forall idx, in_range idx (shape a) = true ->
      at_ r idx = f (at_ a idx) (at_ b (set_nth k 0 idx)).
Proof.
  intros Hk Hb. unfold zip_mut_with. rewrite Hb.
  destruct (list_nat_eqb (shape a) (set_nth k 1 (shape a))) eqn:E.
  - eexists; split; [reflexivity|]. split; [reflexivity|]. split; [apply wf_build|].
    intros idx Hin. rewrite at_build by exact Hin. do 2 f_equal.
    unfold list_nat_eqb in E. destruct (list_eq_dec _ _ _) as [Es|]; [|discriminate].
    pose proof (in_range_nth idx (shape a) k Hin Hk) as Hlt.
    rewrite Es in Hlt. rewrite nth_set_nth in Hlt by exact Hk. rewrite Nat.eqb_refl in Hlt.
    assert (E0 : nth k idx 0 = 0) by lia. rewrite <- E0 at 1. rewrite set_nth_nth. reflexivity.
  - rewrite can_broadcast_set_nth.
    eexists; split; [reflexivity|]. split; [reflexivity|]. split; [apply wf_build|].
    intros idx Hin. rewrite at_build by exact Hin. rewrite broadcast_index_set_nth by exact Hin.
    reflexivity.
Qed.

Lemma at_mapv {A B : Type} `{Zeroed A} `{Zeroed B} (f : A -> B) (a : NdArray A) (idx : list nat) :
  wf a -> in_range idx (shape a) = true -> at_ (mapv f a) idx = f (at_ a idx).
Proof.
  intros Hwf Hin. unfold at_, mapv; simpl.
  pose proof (ravel_lt _ _ Hin) as Hr. unfold wf, len in Hwf.
  rewrite (nth_indep _ zero (f zero)) by (rewrite length_map; lia).
  apply map_nth.
Qed.

(** [into_shape] from the shape reduced by [remove_axis] to the one with a
    unit axis in its place. *)
Lemma into_shape_reduced {A : Type} (s : list nat) (k : nat) (F : list nat -> A) :
  k < length s ->
  into_shape (build (remove_at k s) F) (set_nth k 1 s) =
    Some (mkArr (set_nth k 1 s) (data (build (remove_at k s) F))).
Proof.
  intros Hk. unfold into_shape, len. rewrite shape_build, prod_set_nth_1, Nat.eqb_refl by exact Hk.
  reflexivity.
Qed.

Lemma at_reduced {A : Type} `{Zeroed A} (s idx : list nat) (k : nat) (F : list nat -> A) :
  k < length s -> in_range idx s = true ->
  at_ (mkArr (set_nth k 1 s) (data (build (remove_at k s) F))) (set_nth k 0 idx) = F (remove_at k idx).
Proof.
  intros Hk Hin. unfold at_; cbn [shape data]. rewrite ravel_set_nth_0 by assumption.
  pose proof (in_range_remove_at idx s k Hin) as Hr.
  rewrite nth_build by (apply ravel_lt, Hr). rewrite unravel_ravel by exact Hr. reflexivity.
Qed.

Lemma sum_map_div (f : nat -> R) (c : R) (l : list nat) :
  fold_right Rplus 0%R (map (fun j => (f j / c)%R) l) = (fold_right Rplus 0%R (map f l) / c)%R.
Proof.
  induction l as [|j l IH]; simpl; [unfold Rdiv; ring|]. rewrite IH. unfold Rdiv; ring.
Qed.

Lemma sum_map_pos (f : nat -> R) (l : list nat) :
  l <> [] -> (forall j, In j l -> 0 < f j)%R -> (0 < fold_right Rplus 0%R (map f l))%R.
Proof.
  induction l as [|j l IH]; intros Hne Hpos; [congruence|]. simpl.
  destruct l as [|j' l'].
  - simpl. rewrite Rplus_0_r. apply Hpos; left; reflexivity.
  - apply Rplus_lt_0_compat; [apply Hpos; left; reflexivity|].
    apply IH; [discriminate|]. intros j0 Hj0; apply Hpos; right; exact Hj0.
Qed.

(** Claim C8.  For a well-formed input and an axis in [-ndim, ndim),
    [softmax_forward] subtracts, lane by lane, the fold of [max] along the
    axis ([M]) before exponentiating, and divides by the lane sum of the
    exponentials ([S]): every output element is positive and every lane of a
    non-empty axis sums to 1 (in exact real arithmetic, whatever
    [T::min_value()] is).  [Softmax::grad] builds
    [(gy - reduce_sum(output * gy, [axis], keep_dims)) * output]. *)
Theorem Softmax_forward_normalizes_lanes (min_value : R) (x : NdArray R) (axis : Z)
  (Hwf : wf x) (Hnd : (Z.of_nat (ndim x) < 2 ^ 63)%Z)
  (Hax : (- Z.of_nat (ndim x) <= axis < Z.of_nat (ndim x))%Z) :
  let k := Z.to_nat (if (axis <? 0)%Z then Z.of_nat (ndim x) + axis else axis) in
  let M := fun r => fold_left (fun acc j => Rmax acc (at_ x (insert_at k j r)))
                              (seq 0 (ax_len x k)) min_value in
  let E := fun r j => exp (at_ x (insert_at k j r) - M r) in
  let S := fun r => fold_right Rplus 0%R (map (E r) (seq 0 (ax_len x k))) in
  exists y, Softmax_compute min_value axis [x] = Done [y] /\ shape y = shape x /\ wf y /\
    (forall idx, in_range idx (shape x) = true ->
       at_ y idx = (E (remove_at k idx) (nth k idx 0%nat) / S (remove_at k idx))%R /\ (0 < at_ y idx)%R) /\
    (0 < ax_len x k -> forall r, in_range r (remove_at k (shape x)) = true ->
       fold_right Rplus 0%R (map (fun j => at_ y (insert_at k j r)) (seq 0 (ax_len x k))) = 1%R) /\
    (forall gy inputs output, op_grad (Softmax axis) gy inputs output =
       Done [Some (ops_mul (ops_sub gy (ops_reduce_sum (ops_mul output gy) [axis] true)) output)]).
Proof.
  intros k M E S.
  assert (Hk : k < ndim x) by (unfold k; destruct (Z.ltb_spec axis 0); lia).
  assert (Hsel : (if (axis <? 0)%Z then as_usize (Z.of_nat (ndim x) + axis) else as_usize axis)
                 = Z.of_nat k).
  { unfold k; destruct (Z.ltb_spec axis 0); rewrite as_usize_small by lia;
      rewrite Z2Nat.id by lia; reflexivity. }
  unfold Softmax_compute, softmax_forward.
  replace (index_slice [x] 0) with (Done x) by reflexivity. cbn [obind].
  rewrite Hsel, Nat2Z.id.
  replace (Z.of_nat k <? Z.of_nat (ndim x))%Z with true by (symmetry; apply Z.ltb_lt; lia).
  cbn [obind]. unfold fold_axis.
  rewrite into_shape_reduced by exact Hk. cbn [unwrap obind].
  destruct (zip_mut_with_reduced Rminus x
              (mkArr (set_nth k 1 (shape x)) (data (build (remove_at k (shape x))
                 (fun idx => fold_left (fun acc j => Rmax acc (at_ x (insert_at k j idx)))
                                       (seq 0 (ax_len x k)) min_value)))) k Hk eq_refl)
    as [t1 [Ht1 [Hs1 [Hw1 Hat1]]]].
  rewrite Ht1; cbn [obind].
  assert (Hsm : shape (mapv exp t1) = shape x) by exact Hs1.
  assert (Hwm : wf (mapv exp t1)) by (unfold wf, mapv, len in *; simpl; rewrite length_map; exact Hw1).
  unfold sum_axis at 1. rewrite Hsm, into_shape_reduced by exact Hk. cbn [unwrap obind].
  destruct (zip_mut_with_reduced Rdiv (mapv exp t1)
              (mkArr (set_nth k 1 (shape x)) (data (build (remove_at k (shape x))
                 (fun idx => fold_right Rplus 0%R (map (fun j => at_ (mapv exp t1) (insert_at k j idx))
                                                       (seq 0 (ax_len (mapv exp t1) k))))))) k)
    as [y [Hy [Hsy [Hwy Haty]]]].
  { unfold ndim; rewrite Hsm; exact Hk. }
  { cbn [shape]. rewrite Hsm. reflexivity. }
  rewrite Hy; cbn [obind].
  assert (Hks : k < length (shape x)) by exact Hk.
  assert (Hlane : forall r j, in_range r (remove_at k (shape x)) = true -> j < ax_len x k ->
            at_ (mapv exp t1) (insert_at k j r) = E r j).
  { intros r j Hr Hj.
    assert (Hlr : k <= length r).
    { rewrite (in_range_length _ _ Hr), length_remove_at by exact Hks. lia. }
    assert (Hin : in_range (insert_at k j r) (shape x) = true) by (apply in_range_insert_at; auto).
    rewrite at_mapv by first [exact Hw1 | rewrite Hs1; exact Hin].
    rewrite Hat1 by exact Hin. rewrite at_reduced by assumption.
    rewrite remove_insert_at by exact Hlr. reflexivity. }
  assert (HS : forall r, in_range r (remove_at k (shape x)) = true ->
            fold_right Rplus 0%R (map (fun j => at_ (mapv exp t1) (insert_at k j r))
                                      (seq 0 (ax_len (mapv exp t1) k))) = S r).
  { intros r Hr. unfold S. replace (ax_len (mapv exp t1) k) with (ax_len x k)
      by (unfold ax_len; rewrite Hsm; reflexivity).
    f_equal. apply map_ext_in. intros j Hj. apply in_seq in Hj. apply Hlane; [exact Hr | lia]. }
  assert (Hpos : forall r, in_range r (remove_at k (shape x)) = true -> 0 < ax_len x k -> (0 < S r)%R).
  { intros r Hr Hn. unfold S. apply sum_map_pos.
    - destruct (ax_len x k); [lia | discriminate].
    - intros j _. apply exp_pos. }
  assert (Hval : forall idx, in_range idx (shape x) = true ->
            at_ y idx = (E (remove_at k idx) (nth k idx 0%nat) / S (remove_at k idx))%R).
  { intros idx Hin. rewrite Haty by (rewrite Hsm; exact Hin).
    pose proof (in_range_remove_at idx (shape x) k Hin) as Hr.
    rewrite at_reduced by assumption. rewrite HS by exact Hr.
    rewrite <- (insert_remove_at k 0 idx) at 1 by (rewrite (in_range_length _ _ Hin); exact Hks).
    rewrite Hlane by (auto; apply in_range_nth; assumption). reflexivity. }
  exists y. split; [reflexivity|]. split; [rewrite Hsy; exact Hsm|]. split; [exact Hwy|].
  split; [|split].
  - intros idx Hin. split; [apply Hval, Hin|]. rewrite Hval by exact Hin.
    pose proof (in_range_nth idx (shape x) k Hin Hks) as Hn.
    unfold Rdiv. apply Rmult_lt_0_compat; [apply exp_pos|].
    apply Rinv_0_lt_compat, Hpos; [apply in_range_remove_at, Hin | unfold ax_len; lia].
  - intros Hn r Hr.
    assert (Hlr : k <= length r).
    { rewrite (in_range_length _ _ Hr), length_remove_at by exact Hks. lia. }
    rewrite (map_ext_in _ (fun j => (E r j / S r)%R)).
    + rewrite sum_map_div. unfold Rdiv. apply Rinv_r, Rgt_not_eq, Hpos; assumption.
    + intros j Hj. apply in_seq in Hj.
      rewrite Hval by (apply in_range_insert_at; auto; unfold ax_len in Hj; lia).
      rewrite remove_insert_at, nth_insert_at by exact Hlr. reflexivity.
  - intros gy inputs output. reflexivity.
Qed.

Lemma Softmax_forward_normalizes_lanes_witness :
  wf x22r /\ (Z.of_nat (ndim x22r) < 2 ^ 63)%Z /\
  (- Z.of_nat (ndim x22r) <= 1 < Z.of_nat (ndim x22r))%Z /\
  exists y, Softmax_compute 0%R 1 [x22r] = Done [y] /\
    fold_right Rplus 0%R (map (fun j => at_ y [0; j]) (seq 0 2)) = 1%R.
Proof.
  assert (H1 : wf x22r) by reflexivity.
  assert (H2 : (Z.of_nat (ndim x22r) < 2 ^ 63)%Z) by (unfold ndim; simpl; lia).
  assert (H3 : (- Z.of_nat (ndim x22r) <= 1 < Z.of_nat (ndim x22r))%Z) by (unfold ndim; simpl; lia).
  split; [exact H1|]. split; [exact H2|]. split; [exact H3|].
  destruct (Softmax_forward_normalizes_lanes 0%R x22r 1 H1 H2 H3) as [y [Hc [_ [_ [_ [Hsum _]]]]]].
  exists y. split; [exact Hc|].
  exact (Hsum (Nat.lt_0_succ 1) [0] eq_refl).
Defined.

(** ** Clip *)

(** Clip: when [min <= max] every output lies in [[min, max]] and inputs
    already in that range are unchanged; when [min > max] every output is
    [min] ([a.min(max).max(min)]). *)
Theorem Clip_output_in_range (min max : Z) (x : NdArrayView) :
  exists y, Clip_compute min max [x] = Done [Ok (Owned y)] /\ shape y = shape (view x) /\
    Forall2 (fun a b => (min <= max -> min <= b <= max /\ (min <= a <= max -> b = a)) /\
                        (max < min -> b = min))%Z
            (data (view x)) (data y).
Proof.
  eexists; split; [reflexivity|]. split; [reflexivity|]. unfold mapv; cbn [data].
  induction (data (view x)) as [|a l IH]; simpl; constructor; [|exact IH]. lia.
Qed.

(** ** Split / SplitGrad, Tile, Concat then Split *)

Lemma in_range_iff (idx s : list nat) :
  in_range idx s = true <->
  length idx = length s /\ forall k, k < length s -> nth k idx 0 < nth k s 0.
Proof.
  revert s; induction idx as [|i idx IH]; intros [|d s]; simpl.
  - split; [intros _; split; [reflexivity | intros; lia] | reflexivity].
  - split; [discriminate | intros [H _]; discriminate].
  - split; [discriminate | intros [H _]; discriminate].
  - rewrite andb_true_iff, Nat.ltb_lt, IH. split.
    + intros [Hi [Hl Hk]]. split; [lia|]. intros [|k] Hk'; [exact Hi | apply Hk; lia].
    + intros [Hl Hk]. split; [apply (Hk 0); lia|]. split; [lia|].
      intros k Hk'. apply (Hk (S k)); lia.
Qed.

Lemma build_ext {A : Type} (s : list nat) (f g : list nat -> A) :
  (forall idx, in_range idx s = true -> f idx = g idx) -> build s f = build s g.
Proof.
  intros H. unfold build. f_equal. apply map_ext_in. intros p Hp.
  apply in_seq in Hp. apply H, in_range_unravel. lia.
Qed.

Lemma build_at {A : Type} `{Zeroed A} (a : NdArray A) : wf a -> build (shape a) (at_ a) = a.
Proof.
  intros Hwf. destruct a as [s d]. unfold wf, len in Hwf; simpl in Hwf. unfold build; simpl. f_equal.
  apply nth_ext with (d := zero) (d' := zero); rewrite length_map, length_seq; [lia|].
  intros p Hp. rewrite (nth_indep _ zero (at_ (mkArr s d) (unravel s 0))) by (rewrite length_map, length_seq; lia).
  rewrite (map_nth (fun p => at_ (mkArr s d) (unravel s p))), seq_nth by lia.
  apply (at_unravel (mkArr s d)). unfold len; simpl. lia.
Qed.

Lemma set_nth_set_nth {A : Type} (k : nat) (v w : A) (l : list A) :
  set_nth k v (set_nth k w l) = set_nth k v l.
Proof. revert k; induction l as [|x l IH]; intros [|k]; simpl; auto. rewrite IH; reflexivity. Qed.

Lemma nth_set_nth_same {A : Type} (k : nat) (v d : A) (l : list A) :
  k < length l -> nth k (set_nth k v l) d = v.
Proof. intros Hk. rewrite nth_set_nth by exact Hk. rewrite Nat.eqb_refl. reflexivity. Qed.

Lemma in_range_set_nth (idx s : list nat) (k v d : nat) :
  in_range idx s = true -> k < length s -> v < d ->
  in_range (set_nth k v idx) (set_nth k d s) = true.
Proof.
  intros H Hk Hv. apply in_range_iff in H as [Hl Hn]. apply in_range_iff.
  rewrite !length_set_nth. split; [exact Hl|]. intros j Hj.
  rewrite !nth_set_nth by lia. destruct (Nat.eqb j k); [exact Hv | apply Hn; exact Hj].
Qed.

(** [do_slices] axis by axis. *)
Lemma do_slices_nth (s : list nat) (sls : list UnitSlice) (f : nat -> nat * nat) :
  length sls = length s ->
  (forall i, i < length s -> do_slice (nth i s 0) (nth i sls full_slice) = Done (f i)) ->
  do_slices s sls = Done (map f (seq 0 (length s))).
Proof.
  revert sls f; induction s as [|d s IH]; intros [|sl sls] f Hl H; simpl in *; try discriminate; [reflexivity|].
  rewrite (H 0) by lia. cbn [obind].
  rewrite (IH sls (fun i => f (S i))) by (try lia; intros i Hi; apply (H (S i)); lia).
  cbn [obind]. rewrite <- seq_shift, map_map. reflexivity.
Qed.

Lemma do_slice_full (n : nat) : do_slice n full_slice = Done (0, n).
Proof.
  unfold do_slice, abs_index; simpl.
  destruct (Z.ltb_spec (Z.of_nat n) 0); [lia|]. simpl.
  destruct (Z.ltb_spec (Z.of_nat n) 0); [lia|]. simpl.
  destruct (Z.ltb_spec (Z.of_nat n) (Z.of_nat n)); [lia|]. simpl.
  rewrite Nat2Z.id. reflexivity.
Qed.

Lemma do_slice_range (n st en : nat) :
  st <= en <= n -> do_slice n (mkSlice (Z.of_nat st) (Some (Z.of_nat en))) = Done (st, en).
Proof.
  intros H. unfold do_slice, abs_index; simpl.
  assert (E1 : (Z.of_nat st <? 0)%Z = false) by (apply Z.ltb_ge; lia).
  assert (E2 : (Z.of_nat en <? 0)%Z = false) by (apply Z.ltb_ge; lia).
  assert (E3 : (Z.of_nat en <? Z.of_nat st)%Z = false) by (apply Z.ltb_ge; lia).
  assert (E4 : (Z.of_nat n <? Z.of_nat st)%Z = false) by (apply Z.ltb_ge; lia).
  assert (E5 : (Z.of_nat n <? Z.of_nat en)%Z = false) by (apply Z.ltb_ge; lia).
  rewrite E1, E2; simpl. rewrite E1, E2, E3; simpl. rewrite E4, E5; simpl.
  rewrite !Nat2Z.id. reflexivity.
Qed.

Lemma nth_split_ranges (s : list nat) (ax st en i : nat) :
  i < length s ->
  nth i (split_ranges s ax st en) (0, 0) = if Nat.eqb i ax then (st, en) else (0, nth i s 0).
Proof.
  intros Hi. unfold split_ranges.
  rewrite (nth_indep _ (0, 0) (if Nat.eqb 0 ax then (st, en) else (0, nth 0 s 0)))
    by (rewrite length_map, length_seq; exact Hi).
  rewrite (map_nth (fun i => if Nat.eqb i ax then (st, en) else (0, nth i s 0))), seq_nth by exact Hi.
  reflexivity.
Qed.

Lemma length_split_ranges (s : list nat) (ax st en : nat) : length (split_ranges s ax st en) = length s.
Proof. unfold split_ranges. rewrite length_map, length_seq. reflexivity. Qed.

Lemma make_indices_for_split_ok (x : NdArray Z) (ax st en : nat) :
  ax < ndim x -> st <= en <= ax_len x ax ->
  exists sls, make_indices_for_split x (Z.of_nat st) (Z.of_nat en) (Z.of_nat ax) = Done sls /\
    do_slices (shape x) sls = Done (split_ranges (shape x) ax st en).
Proof.
  intros Hax Hse. unfold make_indices_for_split.
  destruct (Z.ltb_spec (Z.of_nat ax) (Z.of_nat (ndim x))); [|lia].
  eexists; split; [reflexivity|]. apply do_slices_nth.
  - rewrite length_map, length_seq. reflexivity.
  - intros i Hi. unfold ndim.
    rewrite (nth_indep _ full_slice (if (Z.of_nat 0 =? Z.of_nat ax)%Z then mkSlice (Z.of_nat st) (Some (Z.of_nat en)) else full_slice))
      by (rewrite length_map, length_seq; exact Hi).
    rewrite (map_nth (fun i => if (Z.of_nat i =? Z.of_nat ax)%Z then mkSlice (Z.of_nat st) (Some (Z.of_nat en)) else full_slice)), seq_nth by exact Hi.
    simpl. destruct (Nat.eqb_spec i ax) as [->|Hne].
    + rewrite Z.eqb_refl. apply do_slice_range. exact Hse.
    + destruct (Z.eqb_spec (Z.of_nat i) (Z.of_nat ax)); [lia|]. apply do_slice_full.
Qed.

Lemma make_indices_for_split_bad_axis (x : NdArray Z) (st en axis : Z) :
  (Z.of_nat (ndim x) <= axis)%Z -> make_indices_for_split x st en axis = Panic "Wrong split axis".
Proof.
  intros H. unfold make_indices_for_split. destruct (Z.ltb_spec axis (Z.of_nat (ndim x))); [lia|reflexivity].
Qed.

Lemma split_ranges_extents (s : list nat) (ax st en : nat) :
  ax < length s ->
  map (fun r => snd r - fst r) (split_ranges s ax st en) = set_nth ax (en - st) s.
Proof.
  intros Hax. apply nth_ext with (d := 0) (d' := 0).
  - rewrite length_map, length_split_ranges, length_set_nth. reflexivity.
  - intros i Hi. rewrite length_map, length_split_ranges in Hi.
    rewrite (nth_indep _ 0 ((fun r => snd r - fst r) (0, 0))) by (rewrite length_map, length_split_ranges; exact Hi).
    rewrite (map_nth (fun r => snd r - fst r) _ (0, 0)), nth_split_ranges, nth_set_nth by lia.
    destruct (Nat.eqb i ax); simpl; lia.
Qed.

Lemma split_ranges_offset (s idx : list nat) (ax st en : nat) :
  length idx = length s -> ax < length s ->
  map (fun '(i, r) => i + fst r) (combine idx (split_ranges s ax st en)) =
    set_nth ax (nth ax idx 0 + st) idx.
Proof.
  intros Hl Hax. apply nth_ext with (d := 0) (d' := 0).
  - rewrite length_map, length_combine, length_split_ranges, length_set_nth. lia.
  - intros i Hi. rewrite length_map, length_combine, length_split_ranges in Hi.
    rewrite (nth_indep _ 0 ((fun '(i, r) => i + fst r) (0, (0, 0))))
      by (rewrite length_map, length_combine, length_split_ranges; exact Hi).
    rewrite (map_nth (fun '(i, r) => i + fst r) _ (0, (0, 0))).
    rewrite combine_nth by (rewrite length_split_ranges; exact Hl).
    rewrite nth_split_ranges, nth_set_nth by lia.
    destruct (Nat.eqb_spec i ax) as [->|]; simpl; lia.
Qed.

Lemma split_ranges_back (s idx : list nat) (ax st en : nat) :
  length idx = length s -> ax < length s ->
  map (fun '(i, r) => i - fst r) (combine idx (split_ranges s ax st en)) =
    set_nth ax (nth ax idx 0 - st) idx.
Proof.
  intros Hl Hax. apply nth_ext with (d := 0) (d' := 0).
  - rewrite length_map, length_combine, length_split_ranges, length_set_nth. lia.
  - intros i Hi. rewrite length_map, length_combine, length_split_ranges in Hi.
    rewrite (nth_indep _ 0 ((fun '(i, r) => i - fst r) (0, (0, 0))))
      by (rewrite length_map, length_combine, length_split_ranges; exact Hi).
    rewrite (map_nth (fun '(i, r) => i - fst r) _ (0, (0, 0))).
    rewrite combine_nth by (rewrite length_split_ranges; exact Hl).
    rewrite nth_split_ranges, nth_set_nth by lia.
    destruct (Nat.eqb_spec i ax) as [->|]; simpl; lia.
Qed.

Lemma in_region_split_ranges (s idx : list nat) (ax st en : nat) :
  in_range idx s = true -> ax < length s ->
  in_region idx (split_ranges s ax st en) = Nat.leb st (nth ax idx 0) && Nat.ltb (nth ax idx 0) en.
Proof.
  intros Hin Hax. apply in_range_iff in Hin as [Hl Hn]. unfold in_region.
  rewrite length_split_ranges.
  destruct (Nat.leb st (nth ax idx 0) && Nat.ltb (nth ax idx 0) en) eqn:E.
  - apply forallb_forall. intros i Hi. apply in_seq in Hi.
    rewrite nth_split_ranges by lia. destruct (Nat.eqb_spec i ax) as [->|]; [exact E|].
    simpl. apply Nat.ltb_lt, Hn; lia.
  - apply not_true_is_false. intros H. rewrite forallb_forall in H.
    specialize (H ax). rewrite nth_split_ranges, Nat.eqb_refl in H by exact Hax.
    simpl in H. rewrite H in E; [discriminate|]. apply in_seq. lia.
Qed.

Lemma slice_move_split (a : NdArray Z) (ax st en : nat) (sls : list UnitSlice) :
  ax < ndim a ->
  do_slices (shape a) sls = Done (split_ranges (shape a) ax st en) ->
  slice_move a sls =
    Done (build (set_nth ax (en - st) (shape a)) (fun idx => at_ a (set_nth ax (nth ax idx 0 + st) idx))).
Proof.
  intros Hax Hd. unfold slice_move. rewrite Hd. cbn [obind].
  rewrite split_ranges_extents by exact Hax. f_equal. apply build_ext.
  intros idx Hin. apply in_range_length in Hin. rewrite length_set_nth in Hin.
  rewrite split_ranges_offset by assumption. reflexivity.
Qed.

Lemma Split_compute_ok (x : NdArrayView) (axis : Z) (ax st en : nat) :
  normalize_negative_axis axis (ndim (view x)) = Z.of_nat ax -> ax < ndim (view x) ->
  st <= en <= ax_len (view x) ax ->
  Split_compute axis (Z.of_nat st) (Z.of_nat en) [x] =
    Done [Ok (View (mkView (storage x)
      (build (set_nth ax (en - st) (shape (view x)))
             (fun idx => at_ (view x) (set_nth ax (nth ax idx 0 + st) idx)))))].
Proof.
  intros Hax Hlt Hse. unfold Split_compute.
  replace (index_slice [x] 0) with (Done x) by reflexivity. cbn [obind].
  rewrite Hax. destruct (make_indices_for_split_ok (view x) ax st en Hlt Hse) as (sls & Hm & Hd).
  rewrite Hm. cbn [obind]. rewrite (slice_move_split _ ax st en sls Hlt Hd). reflexivity.
Qed.

(** Split with a normalized axis [ax] below the rank and [0 <= st <= en <= x.shape[ax]]
    returns a view of the same storage whose extent along [ax] is [en - st],
    and whose element at [idx] is the input's at [idx] shifted by [st] along [ax]. *)
Theorem Split_selects_range (x : NdArrayView) (axis : Z) (ax st en : nat)
  (Hax : normalize_negative_axis axis (ndim (view x)) = Z.of_nat ax) (Hlt : ax < ndim (view x))
  (Hse : st <= en <= ax_len (view x) ax) :
  exists y, Split_compute axis (Z.of_nat st) (Z.of_nat en) [x] = Done [Ok (View (mkView (storage x) y))] /\
    shape y = set_nth ax (en - st) (shape (view x)) /\ wf y /\
    forall idx, in_range idx (shape y) = true ->
      at_ y idx = at_ (view x) (set_nth ax (nth ax idx 0 + st) idx).
Proof.
  rewrite (Split_compute_ok x axis ax st en Hax Hlt Hse).
  eexists; split; [reflexivity|]. split; [reflexivity|]. split; [apply wf_build|].
  intros idx Hin. rewrite at_build; [reflexivity | exact Hin].
Qed.

(** Split and SplitGrad panic with "Wrong split axis" when the normalized axis
    is not below the rank of the input. *)
Theorem Split_SplitGrad_wrong_axis_panic (x gy : NdArrayView) (axis st en : Z)
  (Hax : (Z.of_nat (ndim (view x)) <= normalize_negative_axis axis (ndim (view x)))%Z) :
  Split_compute axis st en [x] = Panic "Wrong split axis" /\
  SplitGrad_compute axis st en [x; gy] = Panic "Wrong split axis".
Proof.
  unfold Split_compute, SplitGrad_compute.
  replace (index_slice [x] 0) with (Done x) by reflexivity.
  replace (index_slice [x; gy] 0) with (Done x) by reflexivity.
  replace (index_slice [x; gy] 1) with (Done gy) by reflexivity. cbn [obind].
  rewrite !make_indices_for_split_bad_axis by exact Hax. split; reflexivity.
Qed.

(** SplitGrad writes [gy] into a zero array of the input's shape at offset [st]
    along [ax] (zero outside [st..en]), and splitting that result with the same
    parameters gives back [gy]. *)
Theorem SplitGrad_scatter_round_trip (x gy : NdArrayView) (axis : Z) (ax st en : nat)
  (Hax : normalize_negative_axis axis (ndim (view x)) = Z.of_nat ax) (Hlt : ax < ndim (view x))
  (Hse : st <= en <= ax_len (view x) ax)
  (Hgy : shape (view gy) = set_nth ax (en - st) (shape (view x))) (Hwf : wf (view gy)) :
  exists gx, SplitGrad_compute axis (Z.of_nat st) (Z.of_nat en) [x; gy] = Done [Ok (Owned gx)] /\
    shape gx = shape (view x) /\ wf gx /\
    (forall idx, in_range idx (shape (view x)) = true ->
       at_ gx idx = if Nat.leb st (nth ax idx 0) && Nat.ltb (nth ax idx 0) en
                    then at_ (view gy) (set_nth ax (nth ax idx 0 - st) idx) else 0%Z) /\
    (forall sid, Split_compute axis (Z.of_nat st) (Z.of_nat en) [mkView sid gx] =
                 Done [Ok (View (mkView sid (view gy)))]).
Proof.
  unfold SplitGrad_compute.
  replace (index_slice [x; gy] 0) with (Done x) by reflexivity.
  replace (index_slice [x; gy] 1) with (Done gy) by reflexivity. cbn [obind].
  rewrite Hax. destruct (make_indices_for_split_ok (view x) ax st en Hlt Hse) as (sls & Hm & Hd).
  rewrite Hm. cbn [obind]. unfold slice_mut_zip_with.
  change (shape (zeros (shape (view x)))) with (shape (view x)).
  set (s := shape (view x)) in *.
  assert (Hls : ax < length s) by exact Hlt.
  rewrite (slice_move_split (zeros s) ax st en sls Hlt Hd). cbn [obind].
  rewrite Hd. cbn [obind]. change (shape (zeros s)) with s.
  unfold zip_mut_with. rewrite shape_build, <- Hgy, list_nat_eqb_refl. cbn [obind].
  set (gx := build s _).
  assert (Hat : forall idx, in_range idx s = true ->
            at_ gx idx = if Nat.leb st (nth ax idx 0) && Nat.ltb (nth ax idx 0) en
                         then at_ (view gy) (set_nth ax (nth ax idx 0 - st) idx) else 0%Z).
  { intros idx Hin. unfold gx. rewrite at_build by exact Hin.
    rewrite in_region_split_ranges by assumption.
    destruct (Nat.leb_spec st (nth ax idx 0)), (Nat.ltb_spec (nth ax idx 0) en); simpl;
      try (unfold zeros; apply at_build, Hin).
    rewrite split_ranges_back by (try apply in_range_length; assumption).
    rewrite at_build; [reflexivity|]. rewrite Hgy.
    apply in_range_set_nth; [exact Hin | exact Hls | lia]. }
  exists gx. split; [reflexivity|]. split; [reflexivity|]. split; [apply wf_build|].
  split; [exact Hat|]. intros sid.
  assert (Hse' : st <= en <= ax_len (view (mkView sid gx)) ax) by exact Hse.
  rewrite (Split_compute_ok (mkView sid gx) axis ax st en Hax Hlt Hse'). cbn [view storage].
  do 4 f_equal. rewrite <- (build_at (view gy) Hwf), Hgy. change (shape gx) with s.
  f_equal. apply build_ext. intros idx Hin.
  pose proof (in_range_nth _ _ ax Hin) as Hi. rewrite length_set_nth, nth_set_nth_same in Hi by exact Hls.
  specialize (Hi Hls).
  assert (Hin' : in_range (set_nth ax (nth ax idx 0 + st) idx) s = true).
  { rewrite <- (set_nth_nth ax 0 s), <- (set_nth_set_nth ax (nth ax s 0) (en - st) s).
    apply in_range_set_nth; [exact Hin | rewrite length_set_nth; exact Hls | unfold ax_len in Hse; fold s in Hse; lia]. }
  rewrite Hat by exact Hin'.
  assert (Hl : length idx = length s) by (apply in_range_length in Hin; rewrite length_set_nth in Hin; exact Hin).
  rewrite nth_set_nth_same by lia.
  destruct (Nat.leb_spec st (nth ax idx 0 + st)), (Nat.ltb_spec (nth ax idx 0 + st) en); try lia. simpl.
  rewrite set_nth_set_nth, Nat.add_sub, set_nth_nth. reflexivity.
Qed.

Lemma fold_left_add_extents (ax : nat) (l : list (NdArray Z)) (n : nat) :
  fold_left (fun acc a => acc + ax_len a ax) l n = n + list_sum (map (fun a => ax_len a ax) l).
Proof.
  revert n; induction l as [|a l IH]; intros n; simpl; [lia|]. rewrite IH. lia.
Qed.

Lemma list_sum_firstn_le (f : NdArray Z -> nat) (l : list (NdArray Z)) (k : nat) (d : NdArray Z) :
  k < length l -> list_sum (map f (firstn k l)) + f (nth k l d) <= list_sum (map f l).
Proof.
  revert k; induction l as [|a l IH]; intros [|k] Hk; simpl in *; try lia.
  specialize (IH k ltac:(lia)). lia.
Qed.

(** The element of a concatenation in block [k]. *)
Lemma stack_at_block (ax : nat) (xs : list (NdArray Z)) (k : nat) (idx : list nat) (d : NdArray Z) :
  k < length xs -> ax < length idx ->
  list_sum (map (fun a => ax_len a ax) (firstn k xs)) <= nth ax idx 0 <
    list_sum (map (fun a => ax_len a ax) (firstn k xs)) + ax_len (nth k xs d) ax ->
  stack_at ax xs idx =
    at_ (nth k xs d) (set_nth ax (nth ax idx 0 - list_sum (map (fun a => ax_len a ax) (firstn k xs))) idx).
Proof.
  revert k idx; induction xs as [|a xs IH]; intros [|k] idx Hk Hax Hj; simpl in *; try lia.
  - destruct (Nat.ltb_spec (nth ax idx 0) (ax_len a ax)); [|lia].
    rewrite Nat.sub_0_r, set_nth_nth. reflexivity.
  - destruct (Nat.ltb_spec (nth ax idx 0) (ax_len a ax)); [lia|].
    rewrite (IH k); [| lia | rewrite length_set_nth; exact Hax | rewrite nth_set_nth_same by exact Hax; lia].
    rewrite nth_set_nth_same, set_nth_set_nth by exact Hax. do 2 f_equal. lia.
Qed.

Lemma set_nth_remove_at_eq (k v : nat) (l1 l2 : list nat) :
  length l1 = length l2 -> remove_at k l1 = remove_at k l2 -> k < length l1 ->
  set_nth k v l1 = set_nth k v l2.
Proof.
  revert k l2; induction l1 as [|a l1 IH]; intros k [|b l2] Hl Hr Hk; simpl in *; try lia.
  destruct k as [|k]; simpl in *; [congruence|].
  injection Hr as -> Hr. rewrite (IH k l2); [reflexivity | lia | exact Hr | lia].
Qed.

Lemma stack_ok (ax : nat) (a0 : NdArray Z) (rest : list (NdArray Z)) :
  ax < ndim a0 ->
  Forall (fun a => remove_at ax (shape a) = remove_at ax (shape a0)) rest ->
  stack (Z.of_nat ax) (a0 :: rest) =
    Some (build (set_nth ax (list_sum (map (fun a => ax_len a ax) (a0 :: rest))) (shape a0))
                (stack_at ax (a0 :: rest))).
Proof.
  intros Hlt Hall. unfold stack.
  destruct (Z.leb_spec (Z.of_nat (ndim a0)) (Z.of_nat ax)); [lia|]. rewrite Nat2Z.id.
  replace (forallb _ _) with true.
  - rewrite fold_left_add_extents. reflexivity.
  - symmetry. apply forallb_forall. intros a [<-|Hin]; [apply list_nat_eqb_refl|].
    rewrite Forall_forall in Hall. rewrite (Hall a Hin). apply list_nat_eqb_refl.
Qed.

Lemma list_sum_map_repeat (f : NdArray Z -> nat) (a : NdArray Z) (n : nat) :
  list_sum (map f (repeat a n)) = n * f a.
Proof. induction n as [|n IH]; simpl; [reflexivity|]. rewrite IH. lia. Qed.

Lemma nth_repeat_in {A : Type} (a d : A) (n k : nat) : k < n -> nth k (repeat a n) d = a.
Proof. revert k; induction n as [|n IH]; intros [|k] Hk; simpl; try lia; auto. apply IH; lia. Qed.

Lemma firstn_repeat_le {A : Type} (a : A) (n k : nat) : k <= n -> firstn k (repeat a n) = repeat a k.
Proof. revert k; induction n as [|n IH]; intros [|k] Hk; simpl; try lia; auto. rewrite IH by lia. reflexivity. Qed.

(** Tile panics with "Shape Incompatible" when [num = 0] or when the normalized
    axis is not below the rank. *)
Theorem Tile_panics (x : NdArrayView) (axis : Z) (num : nat)
  (H : num = 0 \/ (Z.of_nat (ndim (view x)) <= normalize_negative_axis axis (ndim (view x)))%Z) :
  Tile_compute axis num [x] = Panic "Shape Incompatible".
Proof.
  unfold Tile_compute. replace (index_slice [x] 0) with (Done x) by reflexivity. cbn [obind].
  destruct H as [->|H]; [reflexivity|]. destruct num as [|num]; [reflexivity|].
  simpl repeat. unfold stack. destruct (Z.leb_spec (Z.of_nat (ndim (view x))) (normalize_negative_axis axis (ndim (view x)))); [reflexivity|lia].
Qed.

(** Tile with [num > 0] along a normalized axis [ax] below the rank multiplies the
    extent of [ax] by [num]; the element at [idx] is the input's at [idx] with
    [idx[ax]] taken modulo the input's extent. *)
Theorem Tile_repeats_along_axis (x : NdArrayView) (axis : Z) (ax num : nat)
  (Hax : normalize_negative_axis axis (ndim (view x)) = Z.of_nat ax) (Hlt : ax < ndim (view x))
  (Hnum : 0 < num) :
  exists y, Tile_compute axis num [x] = Done [Ok (Owned y)] /\
    shape y = set_nth ax (num * ax_len (view x) ax) (shape (view x)) /\ wf y /\
    forall idx, in_range idx (shape y) = true ->
      at_ y idx = at_ (view x) (set_nth ax (nth ax idx 0 mod ax_len (view x) ax) idx).
Proof.
  unfold Tile_compute. replace (index_slice [x] 0) with (Done x) by reflexivity. cbn [obind].
  rewrite Hax. destruct num as [|n]; [lia|]. cbn [repeat].
  rewrite stack_ok by (try exact Hlt; apply Forall_forall; intros a Ha; apply repeat_spec in Ha; subst; reflexivity).
  change (view x :: repeat (view x) n) with (repeat (view x) (S n)). rewrite list_sum_map_repeat.
  eexists; split; [reflexivity|]. split; [reflexivity|]. split; [apply wf_build|].
  intros idx Hin. rewrite at_build by exact Hin. rewrite shape_build in Hin.
  set (d := ax_len (view x) ax) in *.
  assert (Hl : ax < length idx) by (apply in_range_length in Hin; rewrite length_set_nth in Hin; unfold ndim in Hlt; lia).
  pose proof (in_range_nth _ _ ax Hin) as Hj. rewrite length_set_nth, nth_set_nth_same in Hj by exact Hlt.
  specialize (Hj Hlt).
  assert (Hd : d <> 0) by (intros E; rewrite E in Hj; lia).
  set (j := nth ax idx 0) in *.
  assert (Hk : j / d < S n) by (apply Nat.Div0.div_lt_upper_bound; lia).
  rewrite (stack_at_block ax _ (j / d) idx (view x)); rewrite ?repeat_length; try assumption.
  - rewrite nth_repeat_in by exact Hk. rewrite firstn_repeat_le, list_sum_map_repeat by lia. fold d. do 2 f_equal. rewrite Nat.Div0.mod_eq. lia.
  - rewrite firstn_repeat_le, list_sum_map_repeat, nth_repeat_in by lia. fold d. pose proof (Nat.div_mod j d Hd). pose proof (Nat.mod_upper_bound j d Hd). nia.
Qed.

(** Concat of arrays that agree off the axis stacks their extents; splitting the
    result at the offset of the [k]-th input, over its extent, returns exactly
    that input. *)
Theorem Concat_Split_recovers_inputs (x0 : NdArrayView) (rest : list NdArrayView) (axis : Z) (ax : nat)
  (Hax : normalize_axis axis (view x0) = Z.of_nat ax) (Hlt : ax < ndim (view x0))
  (Hall : Forall (fun x => wf (view x) /\ ndim (view x) = ndim (view x0) /\
                           remove_at ax (shape (view x)) = remove_at ax (shape (view x0))) (x0 :: rest)) :
  exists y, Concat_compute axis (x0 :: rest) = Done [Ok (Owned y)] /\
    shape y = set_nth ax (list_sum (map (fun x => ax_len (view x) ax) (x0 :: rest))) (shape (view x0)) /\
    forall k sid, k < length (x0 :: rest) ->
      let off := list_sum (map (fun x => ax_len (view x) ax) (firstn k (x0 :: rest))) in
      Split_compute axis (Z.of_nat off) (Z.of_nat (off + ax_len (view (nth k (x0 :: rest) x0)) ax))
        [mkView sid y] = Done [Ok (View (mkView sid (view (nth k (x0 :: rest) x0))))].
Proof.
  set (xs := x0 :: rest) in *.
  assert (Hrest : Forall (fun a => remove_at ax (shape a) = remove_at ax (shape (view x0))) (map view rest)).
  { apply Forall_map. apply Forall_inv_tail in Hall. revert Hall. apply Forall_impl. tauto. }
  unfold Concat_compute. unfold xs. rewrite Concat_axis_normalized. cbn [obind map]. rewrite Hax.
  rewrite (stack_ok ax (view x0) (map view rest) Hlt Hrest).
  change (view x0 :: map view rest) with (map view xs). rewrite map_map.
  set (T := list_sum (map (fun x => ax_len (view x) ax) xs)).
  set (s0 := shape (view x0)) in *.
  eexists; split; [reflexivity|]. split; [reflexivity|].
  intros k sid Hk. fold xs in Hk |- *.
  set (off := list_sum (map (fun x => ax_len (view x) ax) (firstn k xs))).
  set (xk := nth k xs x0).
  assert (Hxk : wf (view xk) /\ ndim (view xk) = ndim (view x0) /\ remove_at ax (shape (view xk)) = remove_at ax s0).
  { rewrite Forall_forall in Hall. apply Hall, nth_In, Hk. }
  destruct Hxk as (Hwf & Hnd & Hrm).
  set (sk := shape (view xk)) in *.
  assert (Hl0 : ax < length s0) by exact Hlt.
  assert (Hlk : ax < length sk) by (unfold ndim in Hnd; fold sk s0 in Hnd; lia).
  assert (HT : off + ax_len (view xk) ax <= T).
  { unfold off, T, xk.
    pose proof (list_sum_firstn_le (fun x => ax_len x ax) (map view xs) k (view x0)) as H'.
    rewrite length_map in H'. specialize (H' Hk).
    rewrite firstn_map, !map_map, map_nth in H'. exact H'. }
  assert (HS : forall v, set_nth ax v s0 = set_nth ax v sk)
    by (intros v; apply set_nth_remove_at_eq; [unfold ndim in Hnd; fold sk s0 in Hnd; lia | symmetry; exact Hrm | exact Hl0]).
  set (y := build (set_nth ax T s0) (stack_at ax (map view xs))).
  rewrite (Split_compute_ok (mkView sid y) axis ax off (off + ax_len (view xk) ax)).
  - cbn [view storage]. do 4 f_equal.
    replace (set_nth ax (off + ax_len (view xk) ax - off) (shape y)) with sk.
    2:{ unfold y; rewrite shape_build, set_nth_set_nth, HS.
        replace (off + ax_len (view xk) ax - off) with (ax_len (view xk) ax) by lia.
        unfold ax_len; fold sk. symmetry; apply set_nth_nth. }
    f_equal. transitivity (build sk (at_ (view xk))); [|apply build_at, Hwf].
    apply build_ext. intros idx Hin.
    pose proof (in_range_nth _ _ ax Hin Hlk) as Hi.
    assert (Hli : ax < length idx) by (apply in_range_length in Hin; lia).
    unfold y. rewrite at_build.
    2:{ rewrite HS. apply in_range_set_nth; [exact Hin | exact Hlk |].
        unfold ax_len in HT; fold sk in HT; lia. }
    rewrite (stack_at_block ax (map view xs) k _ (view x0)).
    + rewrite firstn_map, map_map, map_nth, nth_set_nth_same by exact Hli. fold xk off.
      rewrite Nat.add_sub, set_nth_set_nth, set_nth_nth. reflexivity.
    + rewrite length_map. exact Hk.
    + rewrite length_set_nth. exact Hli.
    + rewrite firstn_map, map_map, map_nth, nth_set_nth_same by exact Hli. fold xk off.
      unfold ax_len; fold sk. unfold ax_len in Hi; lia.
  - unfold normalize_negative_axis. cbn [view]. unfold y, ndim. rewrite shape_build, length_set_nth.
    exact Hax.
  - cbn [view]. unfold y, ndim. rewrite shape_build, length_set_nth. exact Hl0.
  - cbn [view]. unfold y, ax_len. rewrite shape_build, nth_set_nth_same by exact Hl0. fold (ax_len (view xk) ax). lia.
Qed.

Lemma Split_selects_range_witness :
  normalize_negative_axis (-1) (ndim (view m23)) = Z.of_nat 1 /\ 1 < ndim (view m23) /\
  1 <= 3 <= ax_len (view m23) 1 /\
  exists y, Split_compute (-1) (Z.of_nat 1) (Z.of_nat 3) [m23] = Done [Ok (View (mkView 2 y))] /\
    shape y = [2; 2] /\ at_ y [1; 0] = 9%Z.
Proof.
  assert (H1 : normalize_negative_axis (-1) (ndim (view m23)) = Z.of_nat 1) by reflexivity.
  assert (H2 : 1 < ndim (view m23)) by (cbv; lia).
  assert (H3 : 1 <= 3 <= ax_len (view m23) 1) by (cbv; lia).
  split; [exact H1|]. split; [exact H2|]. split; [exact H3|].
  destruct (Split_selects_range m23 (-1) 1 1 3 H1 H2 H3) as (y & Hc & Hs & _ & Hat).
  exists y. split; [exact Hc|]. split; [exact Hs|].
  rewrite Hat by (rewrite Hs; reflexivity). reflexivity.
Defined.

Lemma Split_SplitGrad_wrong_axis_panic_witness :
  (Z.of_nat (ndim (view m23)) <= normalize_negative_axis 2 (ndim (view m23)))%Z /\
  Split_compute 2 0 1 [m23] = Panic "Wrong split axis" /\
  SplitGrad_compute 2 0 1 [m23; split_gy] = Panic "Wrong split axis".
Proof.
  assert (H : (Z.of_nat (ndim (view m23)) <= normalize_negative_axis 2 (ndim (view m23)))%Z)
    by (vm_compute; discriminate).
  split; [exact H|]. apply (Split_SplitGrad_wrong_axis_panic m23 split_gy 2 0 1 H).
Defined.

Lemma SplitGrad_scatter_round_trip_witness :
  normalize_negative_axis 1 (ndim (view m23)) = Z.of_nat 1 /\ 1 < ndim (view m23) /\
  1 <= 3 <= ax_len (view m23) 1 /\ shape (view split_gy) = set_nth 1 (3 - 1) (shape (view m23)) /\
  wf (view split_gy) /\
  exists gx, SplitGrad_compute 1 (Z.of_nat 1) (Z.of_nat 3) [m23; split_gy] = Done [Ok (Owned gx)] /\
    at_ gx [1; 0] = 0%Z /\ at_ gx [1; 2] = 4%Z /\
    Split_compute 1 (Z.of_nat 1) (Z.of_nat 3) [mkView 41 gx] = Done [Ok (View (mkView 41 (view split_gy)))].
Proof.
  assert (H1 : normalize_negative_axis 1 (ndim (view m23)) = Z.of_nat 1) by reflexivity.
  assert (H2 : 1 < ndim (view m23)) by (cbv; lia).
  assert (H3 : 1 <= 3 <= ax_len (view m23) 1) by (cbv; lia).
  assert (H4 : shape (view split_gy) = set_nth 1 (3 - 1) (shape (view m23))) by reflexivity.
  assert (H5 : wf (view split_gy)) by reflexivity.
  do 5 (split; [assumption|]).
  destruct (SplitGrad_scatter_round_trip m23 split_gy 1 1 1 3 H1 H2 H3 H4 H5) as (gx & Hc & _ & _ & Hat & Hrt).
  exists gx. split; [exact Hc|]. split; [|split].
  - rewrite Hat by reflexivity. reflexivity.
  - rewrite Hat by reflexivity. reflexivity.
  - apply Hrt.
Defined.

Lemma Tile_panics_witness :
  (0 = 0 \/ (Z.of_nat (ndim (view m22)) <= normalize_negative_axis 0 (ndim (view m22)))%Z) /\
  Tile_compute 0 0 [m22] = Panic "Shape Incompatible".
Proof.
  assert (H : 0 = 0 \/ (Z.of_nat (ndim (view m22)) <= normalize_negative_axis 0 (ndim (view m22)))%Z)
    by (left; reflexivity).
  split; [exact H|]. apply (Tile_panics m22 0 0 H).
Defined.

Lemma Tile_repeats_along_axis_witness :
  normalize_negative_axis 0 (ndim (view m22)) = Z.of_nat 0 /\ 0 < ndim (view m22) /\ 0 < 2 /\
  exists y, Tile_compute 0 2 [m22] = Done [Ok (Owned y)] /\ shape y = [4; 2] /\ at_ y [3; 1] = 4%Z.
Proof.
  assert (H1 : normalize_negative_axis 0 (ndim (view m22)) = Z.of_nat 0) by reflexivity.
  assert (H2 : 0 < ndim (view m22)) by (cbv; lia).
  assert (H3 : 0 < 2) by lia.
  split; [exact H1|]. split; [exact H2|]. split; [exact H3|].
  destruct (Tile_repeats_along_axis m22 0 0 2 H1 H2 H3) as (y & Hc & Hs & _ & Hat).
  exists y. split; [exact Hc|]. split; [exact Hs|].
  rewrite Hat by (rewrite Hs; reflexivity). reflexivity.
Defined.

Lemma Concat_Split_recovers_inputs_witness :
  normalize_axis (-1) (view m22) = Z.of_nat 1 /\ 1 < ndim (view m22) /\
  Forall (fun x => wf (view x) /\ ndim (view x) = ndim (view m22) /\
                   remove_at 1 (shape (view x)) = remove_at 1 (shape (view m22))) [m22; m23] /\
  exists y, Concat_compute (-1) [m22; m23] = Done [Ok (Owned y)] /\ shape y = [2; 5] /\
    Split_compute (-1) (Z.of_nat 2) (Z.of_nat 5) [mkView 42 y] = Done [Ok (View (mkView 42 (view m23)))].
Proof.
  assert (H1 : normalize_axis (-1) (view m22) = Z.of_nat 1) by reflexivity.
  assert (H2 : 1 < ndim (view m22)) by (cbv; lia).
  assert (H3 : Forall (fun x => wf (view x) /\ ndim (view x) = ndim (view m22) /\
                   remove_at 1 (shape (view x)) = remove_at 1 (shape (view m22))) [m22; m23])
    by (repeat constructor).
  split; [exact H1|]. split; [exact H2|]. split; [exact H3|].
  destruct (Concat_Split_recovers_inputs m22 [m23] (-1) 1 H1 H2 H3) as (y & Hc & Hs & Hk).
  exists y. split; [exact Hc|]. split; [exact Hs|].
  apply (Hk 1 42). cbv; lia.
Defined.

(** ** Lists updated at one position *)

Lemma remove_at_set_nth {A : Type} (k : nat) (v : A) (l : list A) :
  remove_at k (set_nth k v l) = remove_at k l.
Proof. revert k; induction l as [|x l IH]; intros [|k]; simpl; auto. rewrite IH; reflexivity. Qed.

Lemma insert_remove_at_set_nth {A : Type} (k : nat) (v : A) (l : list A) :
  k < length l -> insert_at k v (remove_at k l) = set_nth k v l.
Proof.
  revert k; induction l as [|x l IH]; intros [|k] Hk; simpl in *; try lia; auto.
  rewrite IH by lia. reflexivity.
Qed.

Lemma firstn_skipn_set_nth {A : Type} (k : nat) (v : A) (l : list A) :
  k < length l -> firstn k l ++ [v] ++ skipn (S k) l = set_nth k v l.
Proof.
  revert k; induction l as [|x l IH]; intros [|k] Hk; simpl in *; try lia; auto.
  rewrite <- IH by lia. reflexivity.
Qed.

(** ** Softmax without the shift *)

Lemma softmax_forward_elem (min_value : R) (x : NdArray R) (axis : Z) (k : nat)
  (Hwf : wf x) (Hk : k < ndim x)
  (Hsel : (if (axis <? 0)%Z then as_usize (Z.of_nat (ndim x) + axis) else as_usize axis) = Z.of_nat k) :
  exists y, softmax_forward min_value x axis = Done y /\ shape y = shape x /\ wf y /\
    forall idx, in_range idx (shape x) = true ->
      at_ y idx =
        (exp (at_ x idx - fold_left (fun acc j => Rmax acc (at_ x (insert_at k j (remove_at k idx))))
                                    (seq 0 (ax_len x k)) min_value) /
         fold_right Rplus 0%R
           (map (fun j => exp (at_ x (insert_at k j (remove_at k idx)) -
                               fold_left (fun acc j => Rmax acc (at_ x (insert_at k j (remove_at k idx))))
                                         (seq 0 (ax_len x k)) min_value))
                (seq 0 (ax_len x k))))%R.
Proof.
  unfold softmax_forward.
  rewrite Hsel, Nat2Z.id.
  replace (Z.of_nat k <? Z.of_nat (ndim x))%Z with true by (symmetry; apply Z.ltb_lt; lia).
  cbn [obind]. unfold fold_axis.
  rewrite into_shape_reduced by exact Hk. cbn [unwrap obind].
  destruct (zip_mut_with_reduced Rminus x
              (mkArr (set_nth k 1 (shape x)) (data (build (remove_at k (shape x))
                 (fun idx => fold_left (fun acc j => Rmax acc (at_ x (insert_at k j idx)))
                                       (seq 0 (ax_len x k)) min_value)))) k Hk eq_refl)
    as [t1 [Ht1 [Hs1 [Hw1 Hat1]]]].
  rewrite Ht1; cbn [obind].
  assert (Hsm : shape (mapv exp t1) = shape x) by exact Hs1.
  assert (Hwm : wf (mapv exp t1)) by (unfold wf, mapv, len in *; simpl; rewrite length_map; exact Hw1).
  unfold sum_axis at 1. rewrite Hsm, into_shape_reduced by exact Hk. cbn [unwrap obind].
  destruct (zip_mut_with_reduced Rdiv (mapv exp t1)
              (mkArr (set_nth k 1 (shape x)) (data (build (remove_at k (shape x))
                 (fun idx => fold_right Rplus 0%R (map (fun j => at_ (mapv exp t1) (insert_at k j idx))
                                                       (seq 0 (ax_len (mapv exp t1) k))))))) k)
    as [y [Hy [Hsy [Hwy Haty]]]].
  { unfold ndim; rewrite Hsm; exact Hk. }
  { cbn [shape]. rewrite Hsm. reflexivity. }
  rewrite Hy; cbn [obind].
  assert (Hks : k < length (shape x)) by exact Hk.
  assert (Hlane : forall r j, in_range r (remove_at k (shape x)) = true -> j < ax_len x k ->
            at_ (mapv exp t1) (insert_at k j r) =
            exp (at_ x (insert_at k j r) -
                 fold_left (fun acc j => Rmax acc (at_ x (insert_at k j r))) (seq 0 (ax_len x k)) min_value)).
  { intros r j Hr Hj.
    assert (Hlr : k <= length r).
    { rewrite (in_range_length _ _ Hr), length_remove_at by exact Hks. lia. }
    assert (Hin : in_range (insert_at k j r) (shape x) = true) by (apply in_range_insert_at; auto).
    rewrite at_mapv by first [exact Hw1 | rewrite Hs1; exact Hin].
    rewrite Hat1 by exact Hin. rewrite at_reduced by assumption.
    rewrite remove_insert_at by exact Hlr. reflexivity. }
  exists y. split; [reflexivity|]. split; [rewrite Hsy; exact Hsm|]. split; [exact Hwy|].
  intros idx Hin. rewrite Haty by (rewrite Hsm; exact Hin).
  pose proof (in_range_remove_at idx (shape x) k Hin) as Hr.
  rewrite at_reduced by assumption.
  replace (ax_len (mapv exp t1) k) with (ax_len x k) by (unfold ax_len; rewrite Hsm; reflexivity).
  f_equal.
  - rewrite <- (insert_remove_at k 0 idx) at 1 by (rewrite (in_range_length _ _ Hin); exact Hks).
    rewrite Hlane by (auto; apply in_range_nth; assumption).
    rewrite insert_remove_at by (rewrite (in_range_length _ _ Hin); exact Hks). reflexivity.
  - f_equal. apply map_ext_in. intros j Hj. apply in_seq in Hj. apply Hlane; [exact Hr | lia].
Qed.

Lemma sum_map_mul_r {A : Type} (f : A -> R) (c : R) (l : list A) :
  fold_right Rplus 0%R (map (fun j => (f j * c)%R) l) = (fold_right Rplus 0%R (map f l) * c)%R.
Proof. induction l as [|a l IH]; simpl; [ring|]. rewrite IH. ring. Qed.

(** [softmax_forward] computes the plain normalised exponential along the
    axis: the shift by the lane maximum (and [T::min_value()]) does not change
    the value in exact real arithmetic. *)
Theorem Softmax_equals_normalized_exp (min_value : R) (x : NdArray R) (axis : Z)
  (Hwf : wf x) (Hnd : (Z.of_nat (ndim x) < 2 ^ 63)%Z)
  (Hax : (- Z.of_nat (ndim x) <= axis < Z.of_nat (ndim x))%Z) :
  exists y, Softmax_compute min_value axis [x] = Done [y] /\ shape y = shape x /\ wf y /\
    forall idx, in_range idx (shape x) = true ->
      let k := Z.to_nat (if (axis <? 0)%Z then Z.of_nat (ndim x) + axis else axis) in
      at_ y idx = (exp (at_ x idx) /
                   fold_right Rplus 0%R (map (fun j => exp (at_ x (set_nth k j idx))) (seq 0 (ax_len x k))))%R.
Proof.
  set (k := Z.to_nat (if (axis <? 0)%Z then Z.of_nat (ndim x) + axis else axis)).
  assert (Hk : k < ndim x) by (unfold k; destruct (Z.ltb_spec axis 0); lia).
  assert (Hsel : (if (axis <? 0)%Z then as_usize (Z.of_nat (ndim x) + axis) else as_usize axis)
                 = Z.of_nat k).
  { unfold k; destruct (Z.ltb_spec axis 0); rewrite as_usize_small by lia;
      rewrite Z2Nat.id by lia; reflexivity. }
  destruct (softmax_forward_elem min_value x axis k Hwf Hk Hsel) as [y [Hy [Hs [Hw Ha]]]].
  exists y. unfold Softmax_compute.
  replace (index_slice [x] 0) with (Done x) by reflexivity. cbn [obind]. rewrite Hy.
  split; [reflexivity|]. split; [exact Hs|]. split; [exact Hw|].
  intros idx Hin. cbv zeta. fold k. rewrite Ha by exact Hin.
  set (M := fold_left _ _ min_value).
  assert (Hl : k < length idx) by (rewrite (in_range_length _ _ Hin); exact Hk).
  rewrite (map_ext_in _ (fun j => (exp (at_ x (set_nth k j idx)) * exp (- M))%R)).
  - rewrite sum_map_mul_r.
    unfold Rminus. rewrite exp_plus.
    assert (Hc : (exp (- M) * / exp (- M))%R = 1%R) by (apply Rinv_r, Rgt_not_eq, exp_pos).
    unfold Rdiv. rewrite Rinv_mult.
    transitivity (exp (at_ x idx) * / fold_right Rplus 0%R (map (fun j => exp (at_ x (set_nth k j idx)))
                                                           (seq 0 (ax_len x k))) * (exp (- M) * / exp (- M)))%R;
      [ring | rewrite Hc; ring].
  - intros j _. unfold Rminus. rewrite exp_plus, insert_remove_at_set_nth by exact Hl. reflexivity.
Qed.

Lemma Softmax_equals_normalized_exp_witness :
  wf x22r /\ (Z.of_nat (ndim x22r) < 2 ^ 63)%Z /\
  (- Z.of_nat (ndim x22r) <= -1 < Z.of_nat (ndim x22r))%Z /\
  exists y, Softmax_compute 7%R (-1) [x22r] = Done [y] /\
    at_ y [1; 0] = (exp 3 / (exp 3 + (exp 4 + 0)))%R.
Proof.
  assert (H1 : wf x22r) by reflexivity.
  assert (H2 : (Z.of_nat (ndim x22r) < 2 ^ 63)%Z) by (unfold ndim; simpl; lia).
  assert (H3 : (- Z.of_nat (ndim x22r) <= -1 < Z.of_nat (ndim x22r))%Z) by (unfold ndim; simpl; lia).
  split; [exact H1|]. split; [exact H2|]. split; [exact H3|].
  destruct (Softmax_equals_normalized_exp 7%R x22r (-1) H1 H2 H3) as [y [Hc [_ [_ Ha]]]].
  exists y. split; [exact Hc|].
  rewrite (Ha [1; 0] eq_refl). reflexivity.
Defined.

(** ** Sigmoid, Softplus, ELU *)

Section Activations.
Local Open Scope R_scope.

Lemma sigmoid_elem_logistic (a : R) : sigmoid_elem a = / (1 + exp (- a)).
Proof.
  unfold sigmoid_elem, tanh, sinh, cosh.
  set (u := exp (a * / 2)). set (v := exp (- (a * / 2))).
  assert (Hu : 0 < u) by apply exp_pos. assert (Hv : 0 < v) by apply exp_pos.
  assert (Huv : u * v = 1) by (unfold u, v; rewrite <- exp_plus; replace (a * / 2 + - (a * / 2)) with 0 by ring; apply exp_0).
  assert (He : exp (- a) = v * v) by (unfold v; rewrite <- exp_plus; f_equal; field).
  rewrite He. clearbody u v.
  assert (Hs : u + v <> 0) by lra.
  assert (Hv2 : 1 + v * v <> 0) by nra.
  replace ((u - v) / 2 / ((u + v) / 2) * / 2 + / 2) with (u / (u + v)) by (field; exact Hs).
  field_simplify_eq; [|split; assumption].
  nra.
Qed.

Lemma logistic_derivable (x : R) :
  derivable_pt_lim (fun a => / (1 + exp (- a))) x
    (/ (1 + exp (- x)) - / (1 + exp (- x)) * / (1 + exp (- x))).
Proof.
  assert (Hg : derivable_pt_lim (plus_fct (fct_cte 1) (comp exp (opp_fct id))) x (0 + exp (- x) * - 1)).
  { apply derivable_pt_lim_plus; [apply derivable_pt_lim_const|].
    apply (derivable_pt_lim_comp (opp_fct id) exp x (-1) (exp (- x))).
    - apply derivable_pt_lim_opp, derivable_pt_lim_id.
    - apply derivable_pt_lim_exp. }
  assert (Hpos : 0 < 1 + exp (- x)) by (pose proof (exp_pos (- x)); lra).
  pose proof (derivable_pt_lim_div (fct_cte 1) _ x 0 _ (derivable_pt_lim_const 1 x) Hg) as Hd.
  assert (Hne : plus_fct (fct_cte 1) (comp exp (opp_fct id)) x <> 0).
  { unfold plus_fct, fct_cte, comp, opp_fct, id. lra. }
  specialize (Hd Hne).
  apply (derivable_pt_lim_ext (div_fct (fct_cte 1) (plus_fct (fct_cte 1) (comp exp (opp_fct id))))).
  { intros z. unfold div_fct, plus_fct, fct_cte, comp, opp_fct, id. unfold Rdiv. ring. }
  unfold plus_fct, fct_cte, comp, opp_fct, id, Rsqr in Hd.
  replace (/ (1 + exp (- x)) - / (1 + exp (- x)) * / (1 + exp (- x)))
    with ((0 * (1 + exp (- x)) - (0 + exp (- x) * -1) * 1) / ((1 + exp (- x)) * (1 + exp (- x)))).
  - exact Hd.
  - field. lra.
Qed.

Lemma sigmoid_elem_derivable (x : R) :
  derivable_pt_lim sigmoid_elem x (sigmoid_elem x - sigmoid_elem x * sigmoid_elem x).
Proof.
  rewrite sigmoid_elem_logistic.
  apply (derivable_pt_lim_ext (fun a => / (1 + exp (- a)))).
  - intros z. symmetry. apply sigmoid_elem_logistic.
  - apply logistic_derivable.
Qed.

Lemma softplus_elem_ln (a : R) : softplus_elem a = ln (exp a + 1).
Proof. unfold softplus_elem, Rlog. rewrite ln_exp. field. Qed.

Lemma softplus_elem_derivable (x : R) :
  derivable_pt_lim softplus_elem x (exp x / (exp x + 1)).
Proof.
  assert (Hpos : 0 < exp x + 1) by (pose proof (exp_pos x); lra).
  apply (derivable_pt_lim_ext (comp ln (plus_fct exp (fct_cte 1)))).
  { intros z. unfold comp, plus_fct, fct_cte. symmetry. apply softplus_elem_ln. }
  replace (exp x / (exp x + 1)) with (/ (exp x + 1) * (exp x + 0)) by (field; lra).
  apply derivable_pt_lim_comp.
  - apply derivable_pt_lim_plus; [apply derivable_pt_lim_exp | apply derivable_pt_lim_const].
  - apply derivable_pt_lim_ln. unfold plus_fct, fct_cte. exact Hpos.
Qed.

Lemma elu_elem_derivable (alpha x : R) :
  x <> 0 -> derivable_pt_lim (elu_elem alpha) x (elu_grad_elem alpha x).
Proof.
  intros Hx. unfold elu_grad_elem. destruct (Rlt_dec 0 x) as [Hp|Hn].
  - apply (derivable_pt_lim_locally_ext id _ x 0 (x + 1)); [lra| |apply derivable_pt_lim_id].
    intros z Hz. unfold elu_elem, id. destruct (Rlt_dec 0 z); [reflexivity | lra].
  - assert (Hneg : x < 0) by lra.
    apply (derivable_pt_lim_locally_ext (mult_real_fct alpha (minus_fct exp (fct_cte 1)))
             _ x (x - 1) 0); [lra| |].
    + intros z Hz. unfold elu_elem, mult_real_fct, minus_fct, fct_cte.
      destruct (Rlt_dec 0 z); [lra | reflexivity].
    + replace (alpha * (exp x - 1) + alpha) with (alpha * (exp x - 0)) by ring.
      apply derivable_pt_lim_scal, derivable_pt_lim_minus;
        [apply derivable_pt_lim_exp | apply derivable_pt_lim_const].
Qed.

(** Element-wise update of two arrays of one shape, over any element type. *)
Lemma zip_mut_with_same_shape_gen {A : Type} `{Zeroed A} (f : A -> A -> A) (a b : NdArray A) :
  shape b = shape a ->
  exists r, zip_mut_with f a b = Done r /\ shape r = shape a /\ wf r /\
    forall p, (p < len a)%nat -> nth p (data r) zero = f (nth p (data a) zero) (nth p (data b) zero).
Proof.
  intros Hs. unfold zip_mut_with. rewrite Hs, list_nat_eqb_refl.
  eexists; split; [reflexivity|]. split; [reflexivity|]. split; [apply wf_build|].
  intros p Hp. rewrite nth_build by exact Hp.
  rewrite (at_unravel a p Hp). rewrite <- Hs. rewrite (at_unravel b p) by (unfold len; rewrite Hs; exact Hp).
  reflexivity.
Qed.

(** Sigmoid, in exact real arithmetic: the half-tanh forward pass computes
    the logistic function [1 / (1 + e^-x)] element-wise, and the gradient
    node [gy * (y - y^2)] multiplies [gy] by the derivative of the forward
    map. *)
Theorem Sigmoid_logistic_and_grad (x : NdArray R) :
  exists y, Sigmoid_compute [x] = Done [y] /\ shape y = shape x /\
    data y = map (fun a => / (1 + exp (- a))) (data x) /\
    (forall a, derivable_pt_lim sigmoid_elem a (sigmoid_elem a - sigmoid_elem a * sigmoid_elem a)) /\
    (forall gy inputs output, op_grad Sigmoid gy inputs output =
       Done [Some (ops_mul gy (ops_sub output (ops_square output)))]).
Proof.
  exists (mapv sigmoid_elem x). split; [reflexivity|]. split; [reflexivity|].
  assert (Hd : data (mapv sigmoid_elem x) = map (fun a => / (1 + exp (- a))) (data x)).
  { unfold mapv; simpl. apply map_ext, sigmoid_elem_logistic. }
  split; [exact Hd|]. split; [apply sigmoid_elem_derivable | reflexivity].
Qed.

(** Softplus, in exact real arithmetic: the forward pass computes
    [ln(1 + e^x)] element-wise, and the gradient node
    [gy * (exp x / (exp x + 1))] multiplies [gy] by its derivative. *)
Theorem Softplus_ln_and_grad (x : NdArray R) :
  exists y, Softplus_compute [x] = Done [y] /\ shape y = shape x /\
    data y = map (fun a => ln (1 + exp a)) (data x) /\
    (forall a, derivable_pt_lim softplus_elem a (exp a / (exp a + 1))) /\
    (forall gy x0 rest output, op_grad Softplus gy (x0 :: rest) output =
       Done [Some (ops_mul gy (ops_div (ops_exp x0) (ops_add (ops_exp x0) (ops_scalar 1))))]).
Proof.
  exists (mapv softplus_elem x). split; [reflexivity|]. split; [reflexivity|].
  assert (Hd : data (mapv softplus_elem x) = map (fun a => ln (1 + exp a)) (data x)).
  { unfold mapv; simpl. apply map_ext. intros a. rewrite softplus_elem_ln, Rplus_comm. reflexivity. }
  split; [exact Hd|]. split; [apply softplus_elem_derivable | reflexivity].
Qed.

(** ELU / ELUGrad: ELUGrad multiplies [gy] element-wise by the derivative of
    the ELU forward map at every input other than 0; ELU's gradient node is
    ELUGrad on [x] and [gy]; with [alpha >= 0] ELU is bounded below by
    [-alpha]. *)
Theorem ELU_ELUGrad_derivative (alpha : R) (alpha_z : Z) (x gy : NdArray R) (Hwf : wf x) (Hs : shape gy = shape x) :
  exists y g, ELU_compute alpha [x] = Done [y] /\ ELUGrad_compute alpha [x; gy] = Done [g] /\
    shape y = shape x /\ data y = map (elu_elem alpha) (data x) /\
    shape g = shape x /\
    (forall p, (p < len x)%nat ->
       nth p (data g) 0 = elu_grad_elem alpha (nth p (data x) 0) * nth p (data gy) 0) /\
    (forall a, a <> 0 -> derivable_pt_lim (elu_elem alpha) a (elu_grad_elem alpha a)) /\
    (0 <= alpha -> forall a, - alpha <= elu_elem alpha a) /\
    (forall g0 x0 output, op_grad (ELU alpha_z) g0 [x0] output =
       Done [Some (Built (ELUGrad alpha_z) [x0; g0] (Some (ops_shape g0)))]).
Proof.
  destruct (zip_mut_with_same_shape_gen Rmult (mapv (elu_grad_elem alpha) x) gy Hs)
    as [g [Hg [Hsg [_ Hat]]]].
  exists (mapv (elu_elem alpha) x), g.
  split; [reflexivity|]. split.
  { unfold ELUGrad_compute. replace (index_slice [x; gy] 0) with (Done x) by reflexivity.
    replace (index_slice [x; gy] 1) with (Done gy) by reflexivity. cbn [obind]. rewrite Hg. reflexivity. }
  split; [reflexivity|]. split; [reflexivity|]. split; [exact Hsg|].
  split; [|split; [exact (elu_elem_derivable alpha) | split; [|reflexivity]]].
  - intros p Hp. unfold zero, Zeroed_R in Hat. rewrite (Hat p Hp). unfold mapv; cbn [data].
    unfold wf in Hwf. rewrite (nth_indep _ 0 (elu_grad_elem alpha 0)) by (rewrite length_map; lia).
    rewrite map_nth. reflexivity.
  - intros Ha a. unfold elu_elem. destruct (Rlt_dec 0 a); [lra|].
    pose proof (exp_pos a). nra.
Qed.

Lemma ELU_ELUGrad_derivative_witness :
  wf (elu_x) /\ shape (elu_gy) = shape (elu_x) /\
  exists g, ELUGrad_compute 1 [elu_x; elu_gy] = Done [g] /\
    nth 1 (data g) 0 = 4.
Proof.
  assert (H1 : wf (elu_x)) by reflexivity.
  assert (H2 : shape (elu_gy) = shape (elu_x)) by reflexivity.
  split; [exact H1|]. split; [exact H2|].
  destruct (ELU_ELUGrad_derivative 1 1%Z _ _ H1 H2) as [y [g [_ [Hg [_ [_ [_ [Hat _]]]]]]]].
  exists g. split; [exact Hg|]. rewrite (Hat 1%nat (Nat.lt_succ_diag_r 1)).
  unfold elu_x, elu_gy; cbn [nth data]. unfold elu_grad_elem. destruct (Rlt_dec 0 2); [ring | lra].
Defined.

End Activations.

(** ** IndexOp through the memory layout of its input *)

Lemma in_range_nonzero (idx s : list nat) :
  in_range idx s = true ->
  existsb (Nat.eqb 0) s = false /\ forallb (fun d => negb (Nat.eqb d 0)) s = true.
Proof.
  revert idx; induction s as [|d s IH]; intros [|i idx] H; simpl in *; try discriminate; auto.
  apply andb_prop in H as [Hi H]; apply Nat.ltb_lt in Hi.
  destruct (IH idx H) as [E F]; rewrite E, F.
  destruct d; [lia|]; simpl; auto.
Qed.

Lemma prod_pos_in_range (idx s : list nat) : in_range idx s = true -> 0 < prod s.
Proof.
  revert idx; induction s as [|d s IH]; intros [|i idx] H; simpl in *; try discriminate; [lia|].
  apply andb_prop in H as [Hi H]; apply Nat.ltb_lt in Hi. specialize (IH idx H). nia.
Qed.

Lemma standard_dot_aux (s : list nat) (st : list Z) (idx : list nat) :
  forallb (fun '(d, (x, ds)) => Nat.eqb d 1 || (as_usize x =? ds)%Z)
    (combine s (combine st (c_strides s))) = true ->
  Forall isize_range st -> length st = length s ->
  (Z.of_nat (prod s) < 2 ^ 63)%Z -> in_range idx s = true ->
  dot idx st = Z.of_nat (ravel s idx).
Proof.
  revert st idx; induction s as [|d s IH]; intros [|x st] [|i idx] Hf Hst Hl Hp Hin;
    simpl in *; try discriminate; try reflexivity.
  apply andb_prop in Hin as [Hi Hin]; apply Nat.ltb_lt in Hi.
  apply andb_prop in Hf as [Hd Hf].
  inversion Hst as [|? ? Hx Hst']; subst.
  pose proof (prod_pos_in_range idx s Hin) as Hpos.
  assert (Hp' : (Z.of_nat (prod s) < 2 ^ 63)%Z) by (rewrite Nat2Z.inj_mul in Hp; nia).
  rewrite (IH st idx Hf Hst' ltac:(lia) Hp' Hin).
  apply orb_prop in Hd as [Hd | Hd].
  - apply Nat.eqb_eq in Hd; subst d. assert (i = 0) by lia; subst i. lia.
  - apply Z.eqb_eq in Hd. unfold as_usize, isize_range in *.
    assert (x = Z.of_nat (prod s)).
    { destruct (Z.leb_spec 0 x).
      - rewrite Z.mod_small in Hd by lia. exact Hd.
      - rewrite <- (Z.mod_add _ 1) in Hd by lia. rewrite Z.mod_small in Hd by lia. lia. }
    subst x. lia.
Qed.

Lemma standard_dot (s : list nat) (st : list Z) (idx : list nat) :
  is_standard_layout s st = true ->
  Forall isize_range st -> length st = length s ->
  (Z.of_nat (prod s) < 2 ^ 63)%Z -> in_range idx s = true ->
  dot idx st = Z.of_nat (ravel s idx).
Proof.
  intros Hstd Hst Hl Hp Hin.
  destruct (in_range_nonzero idx s Hin) as [E F].
  unfold is_standard_layout, default_strides in Hstd; rewrite E, F in Hstd.
  eapply standard_dot_aux; eauto.
Qed.

Lemma dot_app (a c : list nat) (b e : list Z) :
  length a = length b -> dot (a ++ c) (b ++ e) = (dot a b + dot c e)%Z.
Proof.
  revert b; induction a as [|i a IH]; intros [|y b] H; simpl in *; try discriminate; [reflexivity|].
  rewrite IH by lia. lia.
Qed.

Lemma dot_rev (idx : list nat) (st : list Z) :
  length idx = length st -> dot (rev idx) (rev st) = dot idx st.
Proof.
  revert st; induction idx as [|i idx IH]; intros [|y st] H; simpl in *; try discriminate; [reflexivity|].
  rewrite dot_app by (rewrite !length_rev; lia). rewrite IH by lia. simpl. lia.
Qed.

Lemma prod_app (a b : list nat) : prod (a ++ b) = prod a * prod b.
Proof. induction a as [|d a IH]; simpl; lia. Qed.

Lemma prod_rev (s : list nat) : prod (rev s) = prod s.
Proof. induction s as [|d s IH]; simpl; [reflexivity|]. rewrite prod_app, IH; simpl; lia. Qed.

Lemma in_range_app (a c b e : list nat) :
  length a = length b -> in_range (a ++ c) (b ++ e) = in_range a b && in_range c e.
Proof.
  revert b; induction a as [|i a IH]; intros [|y b] H; simpl in *; try discriminate; [reflexivity|].
  rewrite IH by lia. apply andb_assoc.
Qed.

Lemma in_range_rev (idx s : list nat) : in_range (rev idx) (rev s) = in_range idx s.
Proof.
  destruct (Nat.eq_dec (length idx) (length s)) as [E|E].
  - revert s E; induction idx as [|i idx IH]; intros [|d s] E; simpl in *; try discriminate; [reflexivity|].
    rewrite in_range_app by (rewrite !length_rev; lia). rewrite IH by lia. simpl.
    rewrite andb_true_r. apply andb_comm.
  - assert (forall u v, length u <> length v -> in_range u v = false) as G.
    { induction u as [|i u IH]; intros [|d v] H; simpl in *; auto; [lia|].
      rewrite IH by lia. apply andb_false_r. }
    rewrite !G by (rewrite ?length_rev; exact E). reflexivity.
Qed.

Lemma IndexOp_compute_eq (index : Z) (x : StridedView) :
  IndexOp_compute index [x] =
  match sv_into_shape x [sv_len x] with
  | None => Panic "called `Result::unwrap()` on an `Err` value"
  | Some f =>
      match sv_get f [Z.to_nat (resolve_index (sv_len x) index)] with
      | Some ret => Done [Ok (Owned (arr0 ret))]
      | None => Panic "Index out of bounds"
      end
  end.
Proof. unfold IndexOp_compute; cbn. destruct (sv_into_shape x [sv_len x]); reflexivity. Qed.

Lemma into_shape_len_ok (x : StridedView) :
  Nat.eqb (prod [sv_len x]) (sv_len x) = true.
Proof. simpl. rewrite Nat.mul_1_r. apply Nat.eqb_refl. Qed.

Lemma strides_1d (n : nat) : n <> 0 -> default_strides [n] = [1%Z] /\ fortran_strides [n] = [1%Z].
Proof.
  intros H; unfold default_strides, fortran_strides; simpl.
  destruct (Nat.eqb_spec n 0); [lia|]. split; reflexivity.
Qed.

Lemma sv_get_flat (x : StridedView) (st : list Z) (r : Z) :
  (0 <= r < Z.of_nat (sv_len x))%Z -> st = [1%Z] ->
  sv_get (mkStrided (sv_storage x) (sv_buf x) (sv_offset x) [sv_len x] st) [Z.to_nat r]
  = Some (sv_read x (sv_offset x + r)).
Proof.
  intros Hr ->; unfold sv_get, sv_at, sv_read; simpl.
  destruct (Nat.ltb_spec (Z.to_nat r) (sv_len x)); [|lia]. simpl.
  do 3 f_equal. lia.
Qed.

Lemma sv_get_flat_out (x : StridedView) (st : list Z) (r : Z) :
  (Z.of_nat (sv_len x) <= r)%Z ->
  sv_get (mkStrided (sv_storage x) (sv_buf x) (sv_offset x) [sv_len x] st) [Z.to_nat r] = None.
Proof.
  intros Hr; unfold sv_get; simpl.
  destruct (Nat.ltb_spec (Z.to_nat r) (sv_len x)); [lia|]. reflexivity.
Qed.

(** [IndexOp::compute] on a view with strides [st] over a buffer: when the
    view is in standard layout it returns the element at row-major position
    [r] (the resolved index); when it is not, but its reversed axes are
    (a column-major view of more than one axis), it returns the element at
    column-major position [r]; when it is neither, [into_shape(..).unwrap()]
    panics whatever the index; and a resolved position not below [x.len()]
    panics. *)
Theorem IndexOp_reads_by_layout (x : StridedView) (index : Z)
  (Hn : (Z.of_nat (sv_len x) < 2 ^ 63)%Z)
  (Hst : Forall isize_range (sv_strides x))
  (Hl : length (sv_strides x) = length (sv_shape x)) :
  let r := resolve_index (sv_len x) index in
  ((r < Z.of_nat (sv_len x))%Z ->
   is_standard_layout (sv_shape x) (sv_strides x) = true ->
   IndexOp_compute index [x] =
   Done [Ok (Owned (arr0 (nth (Z.to_nat r) (data (sv_elements x)) 0%Z)))]) /\
  ((r < Z.of_nat (sv_len x))%Z ->
   is_standard_layout (sv_shape x) (sv_strides x) = false ->
   1 < length (sv_shape x) ->
   is_standard_layout (rev (sv_shape x)) (rev (sv_strides x)) = true ->
   IndexOp_compute index [x] =
   Done [Ok (Owned (arr0 (at_ (sv_elements x) (rev (unravel (rev (sv_shape x)) (Z.to_nat r))))))]) /\
  (is_standard_layout (sv_shape x) (sv_strides x) = false ->
   (Nat.ltb 1 (length (sv_shape x)) && is_standard_layout (rev (sv_shape x)) (rev (sv_strides x))) = false ->
   IndexOp_compute index [x] = Panic "called `Result::unwrap()` on an `Err` value") /\
  ((Z.of_nat (sv_len x) <= r)%Z -> exists msg, IndexOp_compute index [x] = Panic msg).
Proof.
  intros r. pose proof (resolve_index_nonneg (sv_len x) index) as Hr0. fold r in Hr0.
  rewrite !IndexOp_compute_eq; unfold sv_into_shape; rewrite into_shape_len_ok; cbn [negb].
  split; [|split; [|split]].
  - intros Hr Hstd; rewrite Hstd.
    assert (Hs1 : sv_len x <> 0) by lia.
    assert (Hp : Z.to_nat r < prod (sv_shape x)) by (unfold sv_len in Hr; lia).
    rewrite sv_get_flat by (try apply (proj1 (strides_1d _ Hs1)); lia).
    unfold sv_elements; rewrite nth_build by exact Hp.
    unfold sv_at; rewrite (standard_dot (sv_shape x)) by
      (try apply in_range_unravel; auto; exact Hn).
    rewrite ravel_unravel by exact Hp. rewrite Z2Nat.id by exact Hr0. reflexivity.
  - intros Hr Hstd Hlen Hrev; rewrite Hstd.
    replace (Nat.ltb 1 (length (sv_shape x))) with true by (symmetry; apply Nat.ltb_lt; exact Hlen).
    rewrite Hrev; cbn [andb].
    assert (Hs1 : sv_len x <> 0) by lia.
    assert (Hp : Z.to_nat r < prod (rev (sv_shape x))) by (rewrite prod_rev; unfold sv_len in Hr; lia).
    rewrite sv_get_flat by (try apply (proj2 (strides_1d _ Hs1)); lia).
    pose proof (in_range_unravel _ _ Hp) as Hin.
    assert (Hin' : in_range (rev (unravel (rev (sv_shape x)) (Z.to_nat r))) (sv_shape x) = true)
      by (rewrite <- in_range_rev, !rev_involutive; exact Hin).
    unfold sv_elements; rewrite at_build by exact Hin'.
    unfold sv_at.
    rewrite <- (rev_involutive (sv_strides x)) at 1.
    rewrite dot_rev by (rewrite length_rev, Hl, <- length_rev; apply in_range_length; exact Hin').
    rewrite (standard_dot (rev (sv_shape x))) by
      (try apply Forall_rev; rewrite ?length_rev, ?prod_rev; auto; exact Hin).
    rewrite ravel_unravel by exact Hp. rewrite Z2Nat.id by exact Hr0. reflexivity.
  - intros Hstd Hf; rewrite Hstd, Hf; reflexivity.
  - intros Hr.
    destruct (is_standard_layout (sv_shape x) (sv_strides x));
      [|destruct (Nat.ltb 1 (length (sv_shape x)) && is_standard_layout (rev (sv_shape x)) (rev (sv_strides x)))];
      cbn [andb]; rewrite ?sv_get_flat_out by exact Hr; eexists; reflexivity.
Qed.

Lemma IndexOp_reads_by_layout_witness :
  IndexOp_compute (-1) [x5s] = Done [Ok (Owned (arr0 50%Z))] /\
  IndexOp_compute 1 [m23_t] = Done [Ok (Owned (arr0 6%Z))] /\
  IndexOp_compute (-1) [m23_cols01] = Panic "called `Result::unwrap()` on an `Err` value".
Proof.
  split; [|split].
  - destruct (IndexOp_reads_by_layout x5s (-1) ltac:(vm_compute; reflexivity)
      ltac:(cbn; repeat (apply Forall_cons; [unfold isize_range; lia|]); apply Forall_nil) ltac:(reflexivity)) as [T _].
    rewrite (T ltac:(vm_compute; reflexivity) ltac:(vm_compute; reflexivity)).
    vm_compute; reflexivity.
  - destruct (IndexOp_reads_by_layout m23_t 1 ltac:(vm_compute; reflexivity)
      ltac:(cbn; repeat (apply Forall_cons; [unfold isize_range; lia|]); apply Forall_nil) ltac:(reflexivity)) as [_ [T _]].
    rewrite (T ltac:(vm_compute; reflexivity) ltac:(vm_compute; reflexivity)
      ltac:(cbv; lia) ltac:(vm_compute; reflexivity)).
    vm_compute; reflexivity.
  - destruct (IndexOp_reads_by_layout m23_cols01 (-1) ltac:(vm_compute; reflexivity)
      ltac:(cbn; repeat (apply Forall_cons; [unfold isize_range; lia|]); apply Forall_nil) ltac:(reflexivity)) as [_ [_ [T _]]].
    exact (T ltac:(vm_compute; reflexivity) ltac:(vm_compute; reflexivity)).
Defined.
